(** * Order-queue execution and inventory netting (gym_trading/utils/mm_broker.py)

    A shallow embedding of the classes [Order], [PositionI] and [Broker].

    Modelling conventions.
    - Python floats are idealised as exact rationals ([Q]); [round(x, 4)]
      is rounding to the nearest multiple of 1/10000, ties to even.  A
      conclusion written with [=] gives the very expression that the code
      evaluates, operation by operation, and so reads the same on binary64
      floats; a conclusion written with [==] ([Qeq]) is a value in exact
      arithmetic.  The module [F64] embeds the methods whose arithmetic
      matters on binary64 floats themselves; it shows where rounding makes
      the two readings differ.
    - A Python exception ends the call: functions that can raise return a
      [Result], and [Raise] carries no state.
    - Objects are records and every method takes the object and returns the
      updated one.  The active order of an inventory is appended to the list
      of positions after the mutation done by
      [get_average_execution_price], which is what the aliasing between
      [self.order] and the appended list element produces in Python.
    - The class attribute [Order._id] is threaded explicitly.
    - [BROKER_FEE] is a constant of [configurations.configs]; the
      definitions that use it take it as a parameter.
    - Logging is not modelled. *)

From Stdlib Require Import ZArith QArith Qround String List Bool Lia Lqa.
From Stdlib Require Import PrimFloat.
Import ListNotations.
Open Scope Q_scope.
Set Warnings "-inexact-float".

(** ** Exceptions *)

Inductive PyError : Type :=
| ZeroDivisionError
| AttributeError.

Inductive Result (A : Type) : Type :=
| Ok (a : A)
| Raise (e : PyError).

Arguments Ok {A} a.
Arguments Raise {A} e.

Definition bind {A B : Type} (m : Result A) (f : A -> Result B) : Result B :=
  match m with
  | Ok a => f a
  | Raise e => Raise e
  end.

Notation "x <- m ;; k" := (bind m (fun x => k))
  (at level 61, m at next level, right associativity).
Notation "' p <- m ;; k" := (bind m (fun x => match x with p => k end))
  (at level 61, p pattern, m at next level, right associativity).

(** ** Numbers *)

Definition Qlt_bool (a b : Q) : bool := negb (Qle_bool b a).

(** [a / b] on floats: raises on a zero divisor. *)
Definition py_div (a b : Q) : Result Q :=
  if Qeq_bool b 0 then Raise ZeroDivisionError else Ok (a / b).

(** [round(x, 4)]. *)
Definition round4 (x : Q) : Q :=
  let scaled := x * 10000 in
  let lo := Qfloor scaled in
  let frac := scaled - inject_Z lo in
  let n :=
    if Qlt_bool frac (1 # 2) then lo
    else if Qlt_bool (1 # 2) frac then (lo + 1)%Z
    else if Z.even lo then lo else (lo + 1)%Z in
  inject_Z n / 10000.

(** ** Dictionaries with float keys, in insertion order *)

Definition dict : Type := list (Q * Q).

Fixpoint dict_get (k : Q) (d : dict) : option Q :=
  match d with
  | [] => None
  | (k', v') :: r => if Qeq_bool k' k then Some v' else dict_get k r
  end.

(** [d[k] = v]: replaces the value of an existing key in place, appends a
    new key at the end. *)
Fixpoint dict_set (k v : Q) (d : dict) : dict :=
  match d with
  | [] => [(k, v)]
  | (k', v') :: r =>
      if Qeq_bool k' k then (k', v) :: r else (k', v') :: dict_set k v r
  end.

(** ** class Order *)

Module Order.

Record t : Type := mk {
  ccy : string;
  side : string;
  price : Q;
  step : Z;
  executed : Q;
  id : Z;
  queue_ahead : Q;
  executions : dict;
  average_exectution_price : Q
}.

Definition _size : Q := 1000.

Definition set_price (self : t) (x : Q) : t :=
  mk (ccy self) (side self) x (step self) (executed self) (id self)
     (queue_ahead self) (executions self) (average_exectution_price self).

Definition set_executed (self : t) (x : Q) : t :=
  mk (ccy self) (side self) (price self) (step self) x (id self)
     (queue_ahead self) (executions self) (average_exectution_price self).

Definition set_id (self : t) (x : Z) : t :=
  mk (ccy self) (side self) (price self) (step self) (executed self) x
     (queue_ahead self) (executions self) (average_exectution_price self).

Definition set_queue_ahead (self : t) (x : Q) : t :=
  mk (ccy self) (side self) (price self) (step self) (executed self)
     (id self) x (executions self) (average_exectution_price self).

Definition set_executions (self : t) (x : dict) : t :=
  mk (ccy self) (side self) (price self) (step self) (executed self)
     (id self) (queue_ahead self) x (average_exectution_price self).

Definition set_average_exectution_price (self : t) (x : Q) : t :=
  mk (ccy self) (side self) (price self) (step self) (executed self)
     (id self) (queue_ahead self) (executions self) x.

(** [Order.__init__]: takes the class counter [Order._id] and returns the
    new order with the incremented counter. *)
Definition init (_id : Z) (ccy side : string) (price : Q) (step : Z)
    (queue_ahead : Q) : t * Z :=
  let _id := (_id + 1)%Z in
  (mk ccy side price step 0 _id queue_ahead [] (-1), _id).

Definition is_filled (self : t) : bool := Qle_bool _size (executed self).

Definition is_first_in_queue (self : t) : bool :=
  Qle_bool (queue_ahead self) 0.

Definition process_executions (self : t) (volume : Q) : t :=
  let self := set_executed self (executed self + volume) in
  let overflow := 0 in
  let '(self, overflow) :=
    if is_filled self then
      let overflow := executed self - _size in
      (set_executed self (executed self - overflow), overflow)
    else (self, overflow) in
  let _price := price self in
  match dict_get _price (executions self) with
  | Some v =>
      set_executions self
        (dict_set _price (v + (volume - overflow)) (executions self))
  | None =>
      set_executions self
        (dict_set _price (volume - overflow) (executions self))
  end.

Definition reduce_queue_ahead (self : t) (executed_volume : Q) : t :=
  let self := set_queue_ahead self (queue_ahead self - executed_volume) in
  if Qlt_bool (queue_ahead self) 0 then
    let splash := 0 - queue_ahead self in
    let self := set_queue_ahead self 0 in
    process_executions self splash
  else self.

(** First loop of [get_average_execution_price]. *)
Fixpoint sum_weights (items : dict) (total_volume : Q) : Result Q :=
  match items with
  | [] => Ok total_volume
  | (k, v) :: r =>
      w <- py_div v k ;;
      sum_weights r (total_volume + w)
  end.

(** Second loop of [get_average_execution_price]. *)
Fixpoint sum_weighted_prices (items : dict) (total_volume acc : Q)
    : Result Q :=
  match items with
  | [] => Ok acc
  | (k, v) :: r =>
      w <- py_div v k ;;
      s <- py_div w total_volume ;;
      sum_weighted_prices r total_volume (acc + k * s)
  end.

Definition get_average_execution_price (self : t) : Result (t * Q) :=
  total_volume <- sum_weights (executions self) 0 ;;
  let self := set_average_exectution_price self 0 in
  avg <- sum_weighted_prices (executions self) total_volume
           (average_exectution_price self) ;;
  let self := set_average_exectution_price self (round4 avg) in
  Ok (self, average_exectution_price self).

End Order.

(** ** class PositionI *)

Module PositionI.

Record t : Type := mk {
  max_position_count : Z;
  positions : list Order.t;
  order : option Order.t;
  realized_pnl : Q;
  unrealized_pnl : Q;
  full_inventory : bool;
  total_exposure : Q;
  side : string;
  average_price : Q;
  reward_size : Q;
  total_trade_count : Z
}.

Definition set_positions (self : t) (x : list Order.t) : t :=
  mk (max_position_count self) x (order self) (realized_pnl self)
     (unrealized_pnl self) (full_inventory self) (total_exposure self)
     (side self) (average_price self) (reward_size self)
     (total_trade_count self).

Definition set_order (self : t) (x : option Order.t) : t :=
  mk (max_position_count self) (positions self) x (realized_pnl self)
     (unrealized_pnl self) (full_inventory self) (total_exposure self)
     (side self) (average_price self) (reward_size self)
     (total_trade_count self).

Definition set_realized_pnl (self : t) (x : Q) : t :=
  mk (max_position_count self) (positions self) (order self) x
     (unrealized_pnl self) (full_inventory self) (total_exposure self)
     (side self) (average_price self) (reward_size self)
     (total_trade_count self).

Definition set_unrealized_pnl (self : t) (x : Q) : t :=
  mk (max_position_count self) (positions self) (order self)
     (realized_pnl self) x (full_inventory self) (total_exposure self)
     (side self) (average_price self) (reward_size self)
     (total_trade_count self).

Definition set_full_inventory (self : t) (x : bool) : t :=
  mk (max_position_count self) (positions self) (order self)
     (realized_pnl self) (unrealized_pnl self) x (total_exposure self)
     (side self) (average_price self) (reward_size self)
     (total_trade_count self).

Definition set_total_exposure (self : t) (x : Q) : t :=
  mk (max_position_count self) (positions self) (order self)
     (realized_pnl self) (unrealized_pnl self) (full_inventory self) x
     (side self) (average_price self) (reward_size self)
     (total_trade_count self).

Definition set_average_price (self : t) (x : Q) : t :=
  mk (max_position_count self) (positions self) (order self)
     (realized_pnl self) (unrealized_pnl self) (full_inventory self)
     (total_exposure self) (side self) x (reward_size self)
     (total_trade_count self).

Definition set_total_trade_count (self : t) (x : Z) : t :=
  mk (max_position_count self) (positions self) (order self)
     (realized_pnl self) (unrealized_pnl self) (full_inventory self)
     (total_exposure self) (side self) (average_price self)
     (reward_size self) x.

(** [PositionI.__init__]; [1 / max_position] raises for a capacity
    of zero. *)
Definition init (side : string) (max_position : Z) : Result t :=
  reward_size <- py_div 1 (inject_Z max_position) ;;
  Ok (mk max_position [] None 0 0 false 0 side 0 reward_size 0%Z).

Definition reset (self : t) : t :=
  let self := set_positions self [] in
  let self := set_order self None in
  let self := set_realized_pnl self 0 in
  let self := set_unrealized_pnl self 0 in
  let self := set_full_inventory self false in
  let self := set_total_exposure self 0 in
  let self := set_average_price self 0 in
  set_total_trade_count self 0%Z.

Definition position_count (self : t) : Z :=
  Z.of_nat (length (positions self)).

Definition add_order (self : t) (order_ : Order.t) : t * bool :=
  if negb (full_inventory self) then
    match order self with
    | None => (set_order self (Some order_), true)
    | Some o =>
        let o := Order.set_price o (Order.price order_) in
        let o := Order.set_queue_ahead o (Order.queue_ahead order_) in
        let o := Order.set_id o (Order.id order_) in
        (set_order self (Some o), true)
    end
  else (self, false).

Definition cancel_order (self : t) : t * bool :=
  match order self with
  | None => (self, false)
  | Some _ => (set_order self None, true)
  end.

(** The first half of [step]: the traded volume is applied to the active
    order when the order is marketable. *)
Definition execute (o : Order.t)
    (bid_price ask_price buy_volume sell_volume : Q) : Order.t :=
  if String.eqb (Order.side o) "long" then
    if Qle_bool bid_price (Order.price o) then
      if Order.is_first_in_queue o
      then Order.process_executions o buy_volume
      else Order.reduce_queue_ahead o buy_volume
    else o
  else if String.eqb (Order.side o) "short" then
    if Qle_bool (Order.price o) ask_price then
      if Order.is_first_in_queue o
      then Order.process_executions o sell_volume
      else Order.reduce_queue_ahead o sell_volume
    else o
  else o.

Definition step (self : t)
    (bid_price ask_price buy_volume sell_volume : Q) (step_ : Z)
    : Result (t * bool) :=
  match order self with
  | None => Ok (self, false)
  | Some o =>
      let o := execute o bid_price ask_price buy_volume sell_volume in
      let self := set_order self (Some o) in
      if Order.is_filled o then
        ' (o, avg) <- Order.get_average_execution_price o ;;
        let self := set_positions self (positions self ++ [o]) in
        let self := set_total_exposure self (total_exposure self + avg) in
        average <- py_div (total_exposure self)
                     (inject_Z (position_count self)) ;;
        let self := set_average_price self average in
        let self := set_full_inventory self
          (position_count self >=? max_position_count self)%Z in
        let self := set_order self None in
        Ok (self, true)
      else Ok (self, false)
  end.

(** [list.pop()]: the last element and the list without it. *)
Definition list_pop {A : Type} (l : list A) : option (list A * A) :=
  match rev l with
  | [] => None
  | x :: r => Some (rev r, x)
  end.

Definition pop_position (self : t) : Result (t * option Order.t) :=
  match list_pop (positions self) with
  | Some (rest, position) =>
      let self := set_positions self rest in
      let self := set_total_exposure self
        (total_exposure self - Order.average_exectution_price position) in
      self <-
        (if (0 <? position_count self)%Z then
           average <- py_div (total_exposure self)
                        (inject_Z (position_count self)) ;;
           Ok (set_average_price self average)
         else Ok (set_average_price self 0)) ;;
      let self := set_full_inventory self
        (position_count self >=? max_position_count self)%Z in
      Ok (self, Some position)
  | None => Ok (self, None)
  end.

Definition remove_position (self : t) (midpoint : Q) : Result (t * Q) :=
  let pnl := 0 in
  match positions self with
  | order_ :: rest =>
      let self := set_positions self rest in
      pnl <-
        (if String.eqb (side self) "long" then
           py_div (midpoint - Order.price order_) (Order.price order_)
         else if String.eqb (side self) "short" then
           py_div (Order.price order_ - midpoint) (Order.price order_)
         else Ok pnl) ;;
      let self := set_realized_pnl self (realized_pnl self + pnl) in
      let self := set_total_exposure self
        (total_exposure self - Order.average_exectution_price order_) in
      self <-
        (if (0 <? position_count self)%Z then
           average <- py_div (total_exposure self)
                        (inject_Z (position_count self)) ;;
           Ok (set_average_price self average)
         else Ok (set_average_price self 0)) ;;
      let self := set_full_inventory self
        (position_count self >=? max_position_count self)%Z in
      let self := set_total_trade_count self
        (total_trade_count self + 1)%Z in
      Ok (self, pnl)
  | [] => Ok (self, pnl)
  end.

Section Fee.

Variable BROKER_FEE : Q.

(** The [while self.position_count > 0] loop of [flatten_inventory].
    Every iteration removes one position, so the caller's fuel, the
    number of positions, is never used up before the loop condition
    fails. *)
Fixpoint flatten_loop (fuel : nat) (self : t) (midpoint : Q)
    : Result t :=
  if (0 <? position_count self)%Z then
    match fuel with
    | O => Ok self
    | S fuel =>
        ' (self, _) <- remove_position self midpoint ;;
        let self := set_realized_pnl self
          (realized_pnl self - BROKER_FEE) in
        flatten_loop fuel self midpoint
    end
  else Ok self.

Definition flatten_inventory (self : t) (midpoint : Q)
    : Result (t * Q) :=
  let prev_realized_pnl := realized_pnl self in
  if (position_count self <? 1)%Z then
    Ok (self, - (1 # 100000000000))
  else
    self <- flatten_loop (length (positions self)) self midpoint ;;
    Ok (self, realized_pnl self - prev_realized_pnl).

End Fee.

Definition get_unrealized_pnl (self : t) (midpoint : Q) : Result Q :=
  if (position_count self =? 0)%Z then Ok 0
  else
    let difference := 0 in
    let difference :=
      if String.eqb (side self) "long" then midpoint - average_price self
      else if String.eqb (side self) "short" then
        average_price self - midpoint
      else difference in
    if Qeq_bool difference 0 then Ok 0
    else py_div difference (average_price self).

End PositionI.

(** ** class Broker *)

Module Broker.

Record t : Type := mk {
  long_inventory : PositionI.t;
  short_inventory : PositionI.t
}.

Definition init (max_position : Z) : Result t :=
  long <- PositionI.init "long" max_position ;;
  short <- PositionI.init "short" max_position ;;
  Ok (mk long short).

Definition reset (self : t) : t :=
  let self :=
    mk (PositionI.reset (long_inventory self)) (short_inventory self) in
  mk (long_inventory self) (PositionI.reset (short_inventory self)).

Definition add (self : t) (order : Order.t) : t * bool :=
  if String.eqb (Order.side order) "long" then
    let '(inv, ok) := PositionI.add_order (long_inventory self) order in
    (mk inv (short_inventory self), ok)
  else if String.eqb (Order.side order) "short" then
    let '(inv, ok) := PositionI.add_order (short_inventory self) order in
    (mk (long_inventory self) inv, ok)
  else (self, false).

Definition long_inventory_count (self : t) : Z :=
  PositionI.position_count (long_inventory self).

Definition short_inventory_count (self : t) : Z :=
  PositionI.position_count (short_inventory self).

Section Fee.

Variable BROKER_FEE : Q.

Definition reward_scale : Q := BROKER_FEE * 2.

Definition flatten_inventory (self : t) (bid_price ask_price : Q)
    : Result (t * Q) :=
  ' (long, total_pnl) <-
    PositionI.flatten_inventory BROKER_FEE (long_inventory self)
      bid_price ;;
  let self := mk long (short_inventory self) in
  ' (short, d) <-
    PositionI.flatten_inventory BROKER_FEE (short_inventory self)
      ask_price ;;
  let self := mk (long_inventory self) short in
  let total_pnl := total_pnl + d in
  if negb (Qeq_bool total_pnl 0) then
    total_pnl <- py_div total_pnl reward_scale ;;
    Ok (self, total_pnl)
  else Ok (self, total_pnl).

Definition step (self : t)
    (bid_price ask_price buy_volume sell_volume : Q) (step_ : Z)
    : Result (t * Q) :=
  let pnl := 0 in
  ' (long, filled) <-
    PositionI.step (long_inventory self) bid_price ask_price
      buy_volume sell_volume step_ ;;
  let self := mk long (short_inventory self) in
  ' (self, pnl) <-
    (if filled then
       if (0 <? short_inventory_count self)%Z then
         ' (long, new_position) <-
           PositionI.pop_position (long_inventory self) ;;
         let self := mk long (short_inventory self) in
         match new_position with
         | None => Raise AttributeError
         | Some new_position =>
             ' (short, d) <-
               PositionI.remove_position (short_inventory self)
                 (Order.price new_position) ;;
             Ok (mk (long_inventory self) short, pnl + d)
         end
       else Ok (self, pnl)
     else Ok (self, pnl)) ;;
  ' (short, filled) <-
    PositionI.step (short_inventory self) bid_price ask_price
      buy_volume sell_volume step_ ;;
  let self := mk (long_inventory self) short in
  ' (self, pnl) <-
    (if filled then
       if (0 <? long_inventory_count self)%Z then
         ' (short, new_position) <-
           PositionI.pop_position (short_inventory self) ;;
         let self := mk (long_inventory self) short in
         match new_position with
         | None => Raise AttributeError
         | Some new_position =>
             ' (long, d) <-
               PositionI.remove_position (long_inventory self)
                 (Order.price new_position) ;;
             Ok (mk long (short_inventory self), pnl + d)
         end
       else Ok (self, pnl)
     else Ok (self, pnl)) ;;
  r <- py_div pnl reward_scale ;;
  Ok (self, r).

End Fee.

Definition get_unrealized_pnl (self : t) (midpoint : Q) : Result Q :=
  long_pnl <- PositionI.get_unrealized_pnl (long_inventory self) midpoint ;;
  short_pnl <- PositionI.get_unrealized_pnl (short_inventory self) midpoint ;;
  Ok (long_pnl + short_pnl).

Definition get_realized_pnl (self : t) : Q :=
  PositionI.realized_pnl (short_inventory self)
  + PositionI.realized_pnl (long_inventory self).

Definition get_total_pnl (self : t) (midpoint : Q) : Result Q :=
  unrealized <- get_unrealized_pnl self midpoint ;;
  Ok (unrealized + get_realized_pnl self).

(** [max(a, b)] of Python: the first argument unless the second is
    larger. *)
Definition py_max (a b : Q) : Q := if Qlt_bool a b then b else a.

(** One half of [get_queues_ahead_features]. *)
Definition queue_feature (order : option Order.t) : Result Q :=
  match order with
  | Some o =>
      let queue := Order.queue_ahead o in
      let executions := py_max (Order.executed o) (1 # 10000) in
      let trade_size := Order._size in
      py_div (executions - queue) (queue + trade_size)
  | None => Ok 0
  end.

Definition get_queues_ahead_features (self : t) : Result (Q * Q) :=
  buy_queue <- queue_feature (PositionI.order (long_inventory self)) ;;
  short_queue <- queue_feature (PositionI.order (short_inventory self)) ;;
  Ok (buy_queue, short_queue).

Definition get_total_trade_count (self : t) : Z :=
  (PositionI.total_trade_count (long_inventory self)
   + PositionI.total_trade_count (short_inventory self))%Z.

End Broker.

(** ** The arithmetic of orders and removals on binary64 floats *)

Module F64.

Local Open Scope float_scope.

Definition py_div (a b : float) : Result float :=
  if PrimFloat.eqb b 0 then Raise ZeroDivisionError else Ok (a / b).

(** An [int] converted to [float], exact for the counts that occur. *)
Fixpoint float_of_nat (n : nat) : float :=
  match n with
  | O => 0
  | S k => float_of_nat k + 1
  end.

Definition dict : Type := list (float * float).

Fixpoint dict_get (k : float) (d : dict) : option float :=
  match d with
  | [] => None
  | (k', v') :: r => if PrimFloat.eqb k' k then Some v' else dict_get k r
  end.

Fixpoint dict_set (k v : float) (d : dict) : dict :=
  match d with
  | [] => [(k, v)]
  | (k', v') :: r =>
      if PrimFloat.eqb k' k then (k', v) :: r else (k', v') :: dict_set k v r
  end.

Fixpoint dict_total (d : dict) : float :=
  match d with
  | [] => 0
  | (_, v) :: r => v + dict_total r
  end.

Record order : Type := mk_order {
  ccy : string;
  side : string;
  price : float;
  step : Z;
  executed : float;
  id : Z;
  queue_ahead : float;
  executions : dict;
  average_exectution_price : float
}.

Definition _size : float := 1000.

Definition Order_init (_id : Z) (ccy side : string) (price : float)
    (step : Z) (queue_ahead : float) : order * Z :=
  let _id := (_id + 1)%Z in
  (mk_order ccy side price step 0 _id queue_ahead [] (-1), _id).

Definition is_filled (self : order) : bool :=
  PrimFloat.leb _size (executed self).

Definition process_executions (self : order) (volume : float) : order :=
  let executed1 := executed self + volume in
  let overflow := 0 in
  let '(executed2, overflow) :=
    if PrimFloat.leb _size executed1 then
      let overflow := executed1 - _size in
      (executed1 - overflow, overflow)
    else (executed1, overflow) in
  let _price := price self in
  let executions' :=
    match dict_get _price (executions self) with
    | Some v => dict_set _price (v + (volume - overflow)) (executions self)
    | None => dict_set _price (volume - overflow) (executions self)
    end in
  mk_order (ccy self) (side self) (price self) (step self) executed2
    (id self) (queue_ahead self) executions'
    (average_exectution_price self).

Definition reduce_queue_ahead (self : order) (executed_volume : float)
    : order :=
  let queue := queue_ahead self - executed_volume in
  if PrimFloat.ltb queue 0 then
    let splash := 0 - queue in
    process_executions
      (mk_order (ccy self) (side self) (price self) (step self)
         (executed self) (id self) 0 (executions self)
         (average_exectution_price self))
      splash
  else
    mk_order (ccy self) (side self) (price self) (step self)
      (executed self) (id self) queue (executions self)
      (average_exectution_price self).

Record inventory : Type := mk_inventory {
  max_position_count : Z;
  positions : list order;
  active : option order;
  realized_pnl : float;
  unrealized_pnl : float;
  full_inventory : bool;
  total_exposure : float;
  inventory_side : string;
  average_price : float;
  reward_size : float;
  total_trade_count : Z
}.

Definition position_count (self : inventory) : Z :=
  Z.of_nat (length (positions self)).

Definition remove_position (self : inventory) (midpoint : float)
    : Result (inventory * float) :=
  let pnl := 0 in
  match positions self with
  | order_ :: rest =>
      pnl <-
        (if String.eqb (inventory_side self) "long" then
           py_div (midpoint - price order_) (price order_)
         else if String.eqb (inventory_side self) "short" then
           py_div (price order_ - midpoint) (price order_)
         else Ok pnl) ;;
      let realized := realized_pnl self + pnl in
      let exposure := total_exposure self - average_exectution_price order_ in
      average <-
        (if (0 <? Z.of_nat (length rest))%Z then
           py_div exposure (float_of_nat (length rest))
         else Ok 0) ;;
      Ok (mk_inventory (max_position_count self) rest (active self)
            realized (unrealized_pnl self)
            (Z.of_nat (length rest) >=? max_position_count self)%Z
            exposure (inventory_side self) average (reward_size self)
            (total_trade_count self + 1)%Z,
          pnl)
  | [] => Ok (self, pnl)
  end.

Fixpoint flatten_loop (BROKER_FEE : float) (fuel : nat) (self : inventory)
    (midpoint : float) : Result inventory :=
  if (0 <? position_count self)%Z then
    match fuel with
    | O => Ok self
    | S fuel =>
        ' (self, _) <- remove_position self midpoint ;;
        let self :=
          mk_inventory (max_position_count self) (positions self)
            (active self) (realized_pnl self - BROKER_FEE)
            (unrealized_pnl self) (full_inventory self)
            (total_exposure self) (inventory_side self)
            (average_price self) (reward_size self)
            (total_trade_count self) in
        flatten_loop BROKER_FEE fuel self midpoint
    end
  else Ok self.

Definition flatten_inventory (BROKER_FEE : float) (self : inventory)
    (midpoint : float) : Result (inventory * float) :=
  let prev_realized_pnl := realized_pnl self in
  if (position_count self <? 1)%Z then Ok (self, - 0.00000000001)
  else
    self <- flatten_loop BROKER_FEE (length (positions self)) self midpoint ;;
    Ok (self, realized_pnl self - prev_realized_pnl).

Inductive call : Type :=
| ReduceQueueAhead (executed_volume : float)
| ProcessExecutions (volume : float).

Definition order_do (o : order) (c : call) : order :=
  match c with
  | ReduceQueueAhead v => reduce_queue_ahead o v
  | ProcessExecutions v => process_executions o v
  end.

Definition order_run (o : order) (cs : list call) : order :=
  fold_left order_do cs o.

End F64.

(** ** Call sequences on one order *)

Inductive order_call : Type :=
| ReduceQueueAhead (executed_volume : Q)
| ProcessExecutions (volume : Q).

Definition order_do (o : Order.t) (c : order_call) : Order.t :=
  match c with
  | ReduceQueueAhead v => Order.reduce_queue_ahead o v
  | ProcessExecutions v => Order.process_executions o v
  end.

Definition order_run (o : Order.t) (cs : list order_call) : Order.t :=
  fold_left order_do cs o.

(** Total volume recorded in an executions mapping. *)
Fixpoint dict_total (d : dict) : Q :=
  match d with
  | [] => 0
  | (_, v) :: r => v + dict_total r
  end.

(** ** The average price as section 4.1 of the specification words it *)

Definition spec_weight (item : Q * Q) : Q := snd item / fst item.

Fixpoint Qsum (l : list Q) : Q :=
  match l with
  | [] => 0
  | x :: r => x + Qsum r
  end.

Definition spec_total_weight (d : dict) : Q := Qsum (map spec_weight d).

Definition spec_average_price (d : dict) : Q :=
  Qsum (map (fun item => fst item * spec_weight item) d)
  / spec_total_weight d.

(** The realized PnL of closing one position, as section 4.5 of the
    specification words it. *)
Definition spec_position_pnl (side : string) (reference_price : Q)
    (position : Order.t) : Q :=
  if String.eqb side "long" then
    (reference_price - Order.price position) / Order.price position
  else if String.eqb side "short" then
    (Order.price position - reference_price) / Order.price position
  else 0.

(** ** Call sequences on one inventory *)

Inductive inventory_call : Type :=
| AddOrder (order : Order.t)
| CancelOrder
| Step (bid_price ask_price buy_volume sell_volume : Q) (step : Z)
| PopPosition
| RemovePosition (midpoint : Q)
| FlattenInventory (midpoint : Q)
| ResetInventory.

Definition inventory_do (BROKER_FEE : Q) (inv : PositionI.t)
    (c : inventory_call) : Result PositionI.t :=
  match c with
  | AddOrder o => Ok (fst (PositionI.add_order inv o))
  | CancelOrder => Ok (fst (PositionI.cancel_order inv))
  | Step bid ask bv sv st =>
      ' (inv, _) <- PositionI.step inv bid ask bv sv st ;; Ok inv
  | PopPosition => ' (inv, _) <- PositionI.pop_position inv ;; Ok inv
  | RemovePosition m => ' (inv, _) <- PositionI.remove_position inv m ;; Ok inv
  | FlattenInventory m =>
      ' (inv, _) <- PositionI.flatten_inventory BROKER_FEE inv m ;; Ok inv
  | ResetInventory => Ok (PositionI.reset inv)
  end.

Fixpoint inventory_run (BROKER_FEE : Q) (inv : PositionI.t)
    (cs : list inventory_call) : Result PositionI.t :=
  match cs with
  | [] => Ok inv
  | c :: cs =>
      inv <- inventory_do BROKER_FEE inv c ;;
      inventory_run BROKER_FEE inv cs
  end.

(** ** The process: the class counter [Order._id] and one broker *)

Module Process.

Record t : Type := mk {
  Order__id : Z;
  broker : Broker.t
}.

(** What the environment does with its broker: it creates an order and
    hands it to [Broker.add] ([_create_order_at_level]), steps the broker,
    flattens the inventory, and resets the broker between episodes. *)
Inductive command : Type :=
| CreateOrder (ccy side : string) (price : Q) (step : Z) (queue_ahead : Q)
| BrokerStep (bid_price ask_price buy_volume sell_volume : Q) (step : Z)
| BrokerFlatten (bid_price ask_price : Q)
| BrokerReset.

Definition exec (BROKER_FEE : Q) (p : t) (c : command) : Result t :=
  match c with
  | CreateOrder ccy side price step queue_ahead =>
      let '(o, _id) :=
        Order.init (Order__id p) ccy side price step queue_ahead in
      Ok (mk _id (fst (Broker.add (broker p) o)))
  | BrokerStep bid ask bv sv st =>
      ' (b, _) <- Broker.step BROKER_FEE (broker p) bid ask bv sv st ;;
      Ok (mk (Order__id p) b)
  | BrokerFlatten bid ask =>
      ' (b, _) <- Broker.flatten_inventory BROKER_FEE (broker p) bid ask ;;
      Ok (mk (Order__id p) b)
  | BrokerReset => Ok (mk (Order__id p) (Broker.reset (broker p)))
  end.

Fixpoint run (BROKER_FEE : Q) (p : t) (cs : list command) : Result t :=
  match cs with
  | [] => Ok p
  | c :: cs => p <- exec BROKER_FEE p c ;; run BROKER_FEE p cs
  end.

(** The ids handed out by the [CreateOrder] commands of a run, oldest
    first. *)
Fixpoint issued_ids (_id : Z) (cs : list command) : list Z :=
  match cs with
  | [] => []
  | CreateOrder ccy side price step queue_ahead :: cs =>
      let '(o, _id) := Order.init _id ccy side price step queue_ahead in
      Order.id o :: issued_ids _id cs
  | _ :: cs => issued_ids _id cs
  end.

End Process.

(** ** Auxiliary notions used in the statements *)

(** The average price kept by an inventory whose exposure is [exposure]
    and which holds [n] positions. *)
Definition average_of (exposure : Q) (n : nat) : Q :=
  match n with
  | O => 0
  | S _ => exposure / inject_Z (Z.of_nat n)
  end.

(** The inventory after [step] has booked the filled order [o], whose
    average execution price is [avg]. *)
Definition booked (inv : PositionI.t) (o : Order.t) (avg : Q)
    : PositionI.t :=
  let ps := PositionI.positions inv ++ [o] in
  PositionI.mk
    (PositionI.max_position_count inv) ps None
    (PositionI.realized_pnl inv) (PositionI.unrealized_pnl inv)
    (Z.of_nat (length ps) >=? PositionI.max_position_count inv)%Z
    (PositionI.total_exposure inv + avg) (PositionI.side inv)
    ((PositionI.total_exposure inv + avg) / inject_Z (Z.of_nat (length ps)))
    (PositionI.reward_size inv) (PositionI.total_trade_count inv).

Definition nonzero_keys (d : dict) : Prop :=
  Forall (fun item => ~ fst item == 0) d.

Definition nonzero_prices (ps : list Order.t) : Prop :=
  Forall (fun p => ~ Order.price p == 0) ps.


(** What [process_executions] does to the executions mapping when it
    records the volume [x] at the price [k]. *)
Definition dict_record (k x : Q) (d : dict) : dict :=
  match dict_get k d with
  | Some v => dict_set k (v + x) d
  | None => dict_set k x d
  end.


(** The invariant of an inventory: a capacity of at least one, no more
    positions than the capacity, a consistent flag, and room for the active
    order when there is one. *)
Definition inventory_inv (inv : PositionI.t) : Prop :=
  (1 <= PositionI.max_position_count inv)%Z /\
  (PositionI.position_count inv <= PositionI.max_position_count inv)%Z /\
  PositionI.full_inventory inv
  = (PositionI.position_count inv >=? PositionI.max_position_count inv)%Z /\
  (PositionI.order inv <> None ->
   (PositionI.position_count inv < PositionI.max_position_count inv)%Z).

(** The active orders of an inventory: the content of its one slot. *)
Definition active_orders (inv : PositionI.t) : list Order.t :=
  match PositionI.order inv with
  | Some o => [o]
  | None => []
  end.

(** The fields that only the constructor sets. *)
Definition same_config (inv inv' : PositionI.t) : Prop :=
  PositionI.max_position_count inv' = PositionI.max_position_count inv /\
  PositionI.side inv' = PositionI.side inv /\
  PositionI.reward_size inv' = PositionI.reward_size inv.

(** The two inventories of a broker keep their configuration. *)
Definition broker_config (b b' : Broker.t) : Prop :=
  same_config (Broker.long_inventory b) (Broker.long_inventory b') /\
  same_config (Broker.short_inventory b) (Broker.short_inventory b').

(** An inventory as [__init__] and [reset] leave it. *)
Definition cleared (inv : PositionI.t) : Prop :=
  PositionI.positions inv = [] /\
  PositionI.order inv = None /\
  PositionI.realized_pnl inv = 0 /\
  PositionI.unrealized_pnl inv = 0 /\
  PositionI.total_exposure inv = 0 /\
  PositionI.average_price inv = 0 /\
  PositionI.total_trade_count inv = 0%Z /\
  PositionI.full_inventory inv = false.

(** The number of orders that a list of commands creates. *)
Fixpoint created (cs : list Process.command) : nat :=
  match cs with
  | [] => O
  | Process.CreateOrder _ _ _ _ _ :: cs => S (created cs)
  | _ :: cs => created cs
  end.

(** What a call of [process_executions] leaves untouched, and what it
    records. *)
Definition same_identity (o o' : Order.t) : Prop :=
  Order.ccy o' = Order.ccy o /\ Order.side o' = Order.side o /\
  Order.price o' = Order.price o /\ Order.step o' = Order.step o /\
  Order.id o' = Order.id o /\
  Order.average_exectution_price o' = Order.average_exectution_price o.

Definition records_fill (o o' : Order.t) : Prop :=
  exists x : Q,
    Order.executions o' = dict_record (Order.price o) x (Order.executions o) /\
    Order.executed o' == Order.executed o + x /\
    Order.executed o' <= Order._size.

(** The average price of an inventory is its total exposure divided by the
    number of its positions (0 without positions). *)
Definition average_inv (inv : PositionI.t) : Prop :=
  PositionI.average_price inv
  = average_of (PositionI.total_exposure inv)
      (length (PositionI.positions inv)).


(** The calls that close positions or wipe the books. *)
Definition closes_positions (c : inventory_call) : bool :=
  match c with
  | RemovePosition _ | FlattenInventory _ | ResetInventory => true
  | _ => false
  end.

(** The netting block of [Broker.step], which the method contains twice:
    after a fill on one side ([own]), when the other side holds a position,
    the filled position is popped and the oldest position of the other side
    is closed at its price.  The result carries both inventories and the
    PnL of the closing (0 without netting). *)
Definition netting (filled : bool) (own other : PositionI.t)
    : Result (PositionI.t * PositionI.t * Q) :=
  if filled then
    if (0 <? PositionI.position_count other)%Z then
      ' (own1, new_position) <- PositionI.pop_position own ;;
      match new_position with
      | None => Raise AttributeError
      | Some new_position =>
          ' (other1, d) <-
            PositionI.remove_position other (Order.price new_position) ;;
          Ok (own1, other1, d)
      end
    else Ok (own, other, 0)
  else Ok (own, other, 0).

(** Every order of the inventory, active or closed, is of side [s]. *)
Definition all_side (s : string) (inv : PositionI.t) : Prop :=
  (forall o, PositionI.order inv = Some o -> Order.side o = s) /\
  Forall (fun p => Order.side p = s) (PositionI.positions inv).

(** No two entries of the mapping have the same key. *)
Fixpoint distinct_keys (d : dict) : Prop :=
  match d with
  | [] => True
  | (k, _) :: r => dict_get k r = None /\ distinct_keys r
  end.

(** The realized PnL after a flattening: for each position, oldest first,
    its removal PnL is added and then the fee is subtracted. *)
Definition realized_after (fee : Q) (side : string) (reference_price : Q)
    (ps : list Order.t) (realized : Q) : Q :=
  fold_left
    (fun realized position =>
       realized + spec_position_pnl side reference_price position - fee)
    ps realized.

(** * Properties *)

(** ** Comparisons and rounding *)

Lemma Qlt_bool_iff (a b : Q) : Qlt_bool a b = true <-> a < b.
Proof.
  unfold Qlt_bool. rewrite negb_true_iff.
  destruct (Qle_bool b a) eqn:E.
  - apply Qle_bool_iff in E. split; [discriminate | intros H; lra].
  - split; [intros _ | reflexivity].
    destruct (Qlt_le_dec a b) as [H | H]; [exact H |].
    apply Qle_bool_iff in H. congruence.
Qed.

Lemma Qle_bool_false (a b : Q) : Qle_bool a b = false <-> b < a.
Proof.
  rewrite <- Qlt_bool_iff. unfold Qlt_bool.
  destruct (Qle_bool a b); simpl; split; congruence.
Qed.

Lemma Qle_bool_comp (a a' b b' : Q) :
  a == a' -> b == b' -> Qle_bool a b = Qle_bool a' b'.
Proof.
  intros Ha Hb.
  destruct (Qle_bool a b) eqn:E, (Qle_bool a' b') eqn:E'; try reflexivity.
  - apply Qle_bool_iff in E. apply Qle_bool_false in E'. lra.
  - apply Qle_bool_iff in E'. apply Qle_bool_false in E. lra.
Qed.

Lemma Qeq_bool_false (a b : Q) : Qeq_bool a b = false <-> ~ a == b.
Proof.
  split.
  - intros E H. apply Qeq_bool_iff in H. congruence.
  - intros H. destruct (Qeq_bool a b) eqn:E; [| reflexivity].
    apply Qeq_bool_iff in E. contradiction.
Qed.

Lemma py_div_ok (a b : Q) : ~ b == 0 -> py_div a b = Ok (a / b).
Proof.
  intros H. unfold py_div. apply Qeq_bool_false in H. now rewrite H.
Qed.

Lemma round4_comp (x y : Q) : x == y -> round4 x = round4 y.
Proof.
  intros H. unfold round4.
  assert (Hf : Qfloor (x * 10000) = Qfloor (y * 10000))
    by (apply Qfloor_comp; now rewrite H).
  rewrite Hf. unfold Qlt_bool.
  rewrite (Qle_bool_comp (1 # 2) (1 # 2)
             (x * 10000 - inject_Z (Qfloor (y * 10000)))
             (y * 10000 - inject_Z (Qfloor (y * 10000))))
    by (rewrite ?H; reflexivity).
  rewrite (Qle_bool_comp
             (x * 10000 - inject_Z (Qfloor (y * 10000)))
             (y * 10000 - inject_Z (Qfloor (y * 10000)))
             (1 # 2) (1 # 2))
    by (rewrite ?H; reflexivity).
  reflexivity.
Qed.

(** ** Dictionaries *)



(** ** Orders: the invariant of claim C3 *)











(** On binary64 floats [executed] itself leaves the cap once subtracting
    the lot size is inexact: a fill of 2^56 + 1008 leaves it at 1008, and
    a fill of 1e20 leaves it at 0, the order not being filled. *)
Lemma f64_cap_is_inexact_for_huge_volumes :
  let o0 := fst (F64.Order_init 0 "BTC-USD" "long" 100 0 0) in
  F64.executed (F64.process_executions o0 72057594037928944) = 1008%float /\
  F64.executed (F64.process_executions o0 1e20) = 0%float /\
  F64.is_filled (F64.process_executions o0 1e20) = false.
Proof.
  intros o0. repeat split; vm_compute; reflexivity.
Qed.

(** ** The average execution price *)

Lemma sum_weights_ok (d : dict) :
  nonzero_keys d ->
  forall acc, exists r,
    Order.sum_weights d acc = Ok r /\ r == acc + spec_total_weight d.
Proof.
  unfold spec_total_weight.
  induction d as [| [k v] d IH]; intros Hk acc; simpl.
  - exists acc. split; [reflexivity | ring].
  - inversion Hk as [| ? ? Hk0 Hk']; subst. simpl in Hk0.
    rewrite (py_div_ok v k Hk0). simpl.
    destruct (IH Hk' (acc + v / k)) as (r & Hr & Er).
    exists r. split; [exact Hr |].
    rewrite Er. unfold spec_weight; simpl. ring.
Qed.

Lemma sum_weighted_prices_ok (d : dict) (total : Q) :
  nonzero_keys d -> ~ total == 0 ->
  forall acc, exists r,
    Order.sum_weighted_prices d total acc = Ok r /\
    r == acc + Qsum (map (fun item => fst item * spec_weight item) d) / total.
Proof.
  intros Hk Ht.
  induction d as [| [k v] d IH]; intros acc; simpl.
  - exists acc. split; [reflexivity | field; exact Ht].
  - inversion Hk as [| ? ? Hk0 Hk']; subst. simpl in Hk0.
    rewrite (py_div_ok v k Hk0). simpl.
    rewrite (py_div_ok (v / k) total Ht). simpl.
    destruct (IH Hk' (acc + k * (v / k / total))) as (r & Hr & Er).
    exists r. split; [exact Hr |].
    rewrite Er. unfold spec_weight; simpl. field. split; assumption.
Qed.

Lemma get_average_execution_price_ok (o : Order.t) :
  nonzero_keys (Order.executions o) ->
  ~ spec_total_weight (Order.executions o) == 0 ->
  Order.get_average_execution_price o
  = Ok (Order.set_average_exectution_price o
          (round4 (spec_average_price (Order.executions o))),
        round4 (spec_average_price (Order.executions o))).
Proof.
  intros Hk Ht. unfold Order.get_average_execution_price.
  destruct (sum_weights_ok _ Hk 0) as (tv & Htv & Etv).
  rewrite Htv. simpl.
  assert (Htv0 : ~ tv == 0) by (rewrite Etv; lra).
  destruct (sum_weighted_prices_ok _ tv Hk Htv0 0) as (r & Hr & Er).
  rewrite Hr. simpl.
  assert (E : r == spec_average_price (Order.executions o)).
  { rewrite Er. unfold spec_average_price.
    assert (Etv' : tv == spec_total_weight (Order.executions o))
      by (rewrite Etv; ring).
    rewrite Etv'. field. exact Ht. }
  rewrite (round4_comp _ _ E). reflexivity.
Qed.






(** ** Inventories: what each method computes *)

Lemma count_nonzero (n : nat) : ~ inject_Z (Z.of_nat (S n)) == 0.
Proof.
  intros H. apply Qeq_bool_iff in H. discriminate H.
Qed.

Lemma list_pop_app {A : Type} (l : list A) (x : A) :
  PositionI.list_pop (l ++ [x]) = Some (l, x).
Proof.
  unfold PositionI.list_pop. rewrite rev_app_distr. simpl.
  now rewrite rev_involutive.
Qed.

Lemma list_pop_nil {A : Type} : PositionI.list_pop (@nil A) = None.
Proof. reflexivity. Qed.

Lemma list_pop_some {A : Type} (l rest : list A) (x : A) :
  PositionI.list_pop l = Some (rest, x) -> l = rest ++ [x].
Proof.
  unfold PositionI.list_pop. destruct (rev l) as [| y r] eqn:E; [discriminate |].
  intros [= <- <-]. rewrite <- (rev_involutive l), E. reflexivity.
Qed.

Lemma remove_position_nil (inv : PositionI.t) (midpoint : Q) :
  PositionI.positions inv = [] ->
  PositionI.remove_position inv midpoint = Ok (inv, 0).
Proof.
  intros H. unfold PositionI.remove_position. now rewrite H.
Qed.

Lemma remove_position_cons (inv : PositionI.t) (midpoint : Q)
    (p : Order.t) (rest : list Order.t) :
  PositionI.positions inv = p :: rest ->
  PositionI.remove_position inv midpoint
  = (pnl <-
       (if String.eqb (PositionI.side inv) "long" then
          py_div (midpoint - Order.price p) (Order.price p)
        else if String.eqb (PositionI.side inv) "short" then
          py_div (Order.price p - midpoint) (Order.price p)
        else Ok 0) ;;
     Ok (PositionI.mk
           (PositionI.max_position_count inv) rest (PositionI.order inv)
           (PositionI.realized_pnl inv + pnl)
           (PositionI.unrealized_pnl inv)
           (Z.of_nat (length rest) >=? PositionI.max_position_count inv)%Z
           (PositionI.total_exposure inv - Order.average_exectution_price p)
           (PositionI.side inv)
           (average_of
              (PositionI.total_exposure inv
               - Order.average_exectution_price p) (length rest))
           (PositionI.reward_size inv)
           (PositionI.total_trade_count inv + 1)%Z,
         pnl)).
Proof.
  intros H. unfold PositionI.remove_position. rewrite H.
  f_equal.
  destruct rest as [| q rest]; reflexivity.
Qed.

Lemma remove_position_pnl (inv : PositionI.t) (midpoint : Q) (p : Order.t) :
  ~ Order.price p == 0 ->
  (if String.eqb (PositionI.side inv) "long" then
     py_div (midpoint - Order.price p) (Order.price p)
   else if String.eqb (PositionI.side inv) "short" then
     py_div (Order.price p - midpoint) (Order.price p)
   else Ok 0)
  = Ok (spec_position_pnl (PositionI.side inv) midpoint p).
Proof.
  intros Hp. unfold spec_position_pnl.
  destruct (String.eqb _ "long"); [now apply py_div_ok |].
  destruct (String.eqb _ "short"); [now apply py_div_ok | reflexivity].
Qed.

(** C6.  On an inventory with at least one closed position (whose price is
    not zero: the division raises otherwise) [remove_position] removes the
    oldest position, the head of the list, returns
    [(reference - price) / price] on the long side and
    [(price - reference) / price] on the short side, adds it to
    [realized_pnl], subtracts the position's average execution price from
    the total exposure, recomputes the average price, and adds exactly 1 to
    the trade count.  On an empty inventory it returns 0 and the inventory
    is unchanged. *)
Theorem C6_remove_position :
  forall (inv : PositionI.t) (reference_price : Q),
    (forall (p : Order.t) (rest : list Order.t),
        PositionI.positions inv = p :: rest ->
        ~ Order.price p == 0 ->
        exists inv' : PositionI.t,
          let pnl := spec_position_pnl (PositionI.side inv) reference_price p in
          PositionI.remove_position inv reference_price = Ok (inv', pnl) /\
          (PositionI.side inv = "long"%string ->
           pnl = (reference_price - Order.price p) / Order.price p) /\
          (PositionI.side inv = "short"%string ->
           pnl = (Order.price p - reference_price) / Order.price p) /\
          PositionI.positions inv' = rest /\
          PositionI.realized_pnl inv' = PositionI.realized_pnl inv + pnl /\
          PositionI.total_exposure inv'
          = PositionI.total_exposure inv - Order.average_exectution_price p /\
          PositionI.average_price inv'
          = average_of (PositionI.total_exposure inv') (length rest) /\
          PositionI.total_trade_count inv'
          = (PositionI.total_trade_count inv + 1)%Z /\
          PositionI.full_inventory inv'
          = (PositionI.position_count inv'
             >=? PositionI.max_position_count inv)%Z /\
          PositionI.order inv' = PositionI.order inv /\
          PositionI.side inv' = PositionI.side inv /\
          PositionI.max_position_count inv'
          = PositionI.max_position_count inv) /\
    (PositionI.positions inv = [] ->
     PositionI.remove_position inv reference_price = Ok (inv, 0)).
Proof.
  intros inv ref. split.
  - intros p rest H Hp.
    rewrite (remove_position_cons inv ref p rest H).
    rewrite (remove_position_pnl inv ref p Hp). simpl.
    eexists. split; [reflexivity |].
    unfold spec_position_pnl, PositionI.position_count. simpl.
    repeat split.
    + intros ->. reflexivity.
    + intros ->. reflexivity.
  - apply remove_position_nil.
Qed.

Lemma C6_remove_position_witness :
  let p1 := Order.mk "BTC-USD" "long" 100 1 1000 1 0 [(100, 1000)] 100 in
  let p2 := Order.mk "BTC-USD" "long" 102 2 1000 2 0 [(102, 1000)] 102 in
  let inv := PositionI.mk 2 [p1; p2] None 0 0 true 202 "long" 101 (1 # 2) 0 in
  exists inv' : PositionI.t,
    PositionI.remove_position inv 105 = Ok (inv', (105 - 100) / 100) /\
    PositionI.positions inv' = [p2] /\
    PositionI.total_trade_count inv' = 1%Z.
Proof.
  intros p1 p2 inv.
  destruct (C6_remove_position inv 105) as [H _].
  destruct (H p1 [p2] eq_refl) as (inv' & H1 & _ & _ & H2 & _ & _ & _ & H3 & _).
  - intros E. apply Qeq_bool_iff in E. discriminate E.
  - exists inv'. repeat split; assumption.
Defined.

(** ** Flattening *)

Lemma flatten_loop_nil (fee : Q) (fuel : nat) (inv : PositionI.t) (m : Q) :
  PositionI.positions inv = [] ->
  PositionI.flatten_loop fee fuel inv m = Ok inv.
Proof.
  intros H. destruct fuel; simpl;
    unfold PositionI.position_count; rewrite H; reflexivity.
Qed.

Lemma flatten_loop_ok (fee m : Q) (ps : list Order.t) :
  forall (inv : PositionI.t) (fuel : nat),
    PositionI.positions inv = ps ->
    (length ps <= fuel)%nat ->
    nonzero_prices ps ->
    exists inv' : PositionI.t,
      PositionI.flatten_loop fee fuel inv m = Ok inv' /\
      PositionI.positions inv' = [] /\
      PositionI.realized_pnl inv'
      = realized_after fee (PositionI.side inv) m ps
          (PositionI.realized_pnl inv) /\
      PositionI.total_trade_count inv'
      = (PositionI.total_trade_count inv + Z.of_nat (length ps))%Z /\
      PositionI.order inv' = PositionI.order inv /\
      PositionI.side inv' = PositionI.side inv /\
      PositionI.max_position_count inv' = PositionI.max_position_count inv.
Proof.
  induction ps as [| p rest IH]; intros inv fuel Hps Hfuel Hnz.
  - exists inv. rewrite (flatten_loop_nil fee fuel inv m Hps).
    repeat split; auto; simpl; lia.
  - destruct fuel as [| fuel]; [simpl in Hfuel; lia |].
    inversion Hnz as [| ? ? Hp Hrest]; subst.
    cbn [PositionI.flatten_loop].
    unfold PositionI.position_count at 1. rewrite Hps.
    change (0 <? Z.of_nat (length (p :: rest)))%Z with true. cbv iota.
    rewrite (remove_position_cons inv m p rest Hps).
    rewrite (remove_position_pnl inv m p Hp).
    cbn [bind PositionI.set_realized_pnl PositionI.realized_pnl
         PositionI.max_position_count PositionI.positions PositionI.order
         PositionI.unrealized_pnl PositionI.full_inventory
         PositionI.total_exposure PositionI.side PositionI.average_price
         PositionI.reward_size PositionI.total_trade_count].
    match goal with
    | |- exists inv', PositionI.flatten_loop _ _ ?s _ = _ /\ _ =>
        destruct (IH s fuel eq_refl) as (inv' & H1 & H2 & H3 & H4 & H5 & H6 & H7);
          [simpl in Hfuel; lia | exact Hrest |]
    end.
    exists inv'. simpl in H3, H4, H5, H6, H7.
    split; [exact H1 |]. split; [exact H2 |].
    split; [exact H3 |]. split; [| now repeat split].
    rewrite H4. cbn [length]. lia.
Qed.

(** In exact arithmetic the accumulation is the sum of the removal PnLs
    minus one fee for each position. *)
Lemma realized_after_exact (fee : Q) (side : string) (m : Q)
    (ps : list Order.t) :
  forall r : Q,
    realized_after fee side m ps r
    == r + Qsum (map (spec_position_pnl side m) ps)
       - inject_Z (Z.of_nat (length ps)) * fee.
Proof.
  unfold realized_after.
  induction ps as [| p rest IH]; intros r.
  - simpl. ring.
  - cbn [fold_left]. rewrite IH. cbn [map Qsum length].
    rewrite Nat2Z.inj_succ, <- Z.add_1_r, inject_Z_plus. ring.
Qed.

Lemma flatten_inventory_empty (fee : Q) (inv : PositionI.t) (m : Q) :
  PositionI.position_count inv = 0%Z ->
  PositionI.flatten_inventory fee inv m = Ok (inv, - (1 # 100000000000)).
Proof.
  intros H. unfold PositionI.flatten_inventory. now rewrite H.
Qed.

Lemma flatten_inventory_ok (fee : Q) (inv : PositionI.t) (m : Q) :
  PositionI.positions inv <> [] ->
  nonzero_prices (PositionI.positions inv) ->
  exists inv' : PositionI.t,
    PositionI.flatten_inventory fee inv m
    = Ok (inv', PositionI.realized_pnl inv' - PositionI.realized_pnl inv) /\
    PositionI.positions inv' = [] /\
    PositionI.realized_pnl inv'
    = realized_after fee (PositionI.side inv) m (PositionI.positions inv)
        (PositionI.realized_pnl inv) /\
    PositionI.total_trade_count inv'
    = (PositionI.total_trade_count inv + PositionI.position_count inv)%Z.
Proof.
  intros Hne Hnz. unfold PositionI.flatten_inventory.
  destruct (PositionI.positions inv) as [| p rest] eqn:Hps; [congruence |].
  unfold PositionI.position_count. rewrite Hps.
  assert (E : (Z.of_nat (length (p :: rest)) <? 1)%Z = false)
    by (apply Z.ltb_ge; cbn [length]; lia).
  rewrite E.
  destruct (flatten_loop_ok fee m (p :: rest) inv (length (p :: rest))
              Hps (le_n _) Hnz)
    as (inv' & H1 & H2 & H3 & H4 & _).
  exists inv'. rewrite H1. simpl bind.
  repeat split; auto.
Qed.

(** C7 (amended).  On an empty inventory [flatten_inventory] returns the
    sentinel [-0.00000000001] and the inventory is unchanged.  On an
    inventory with positions (of non-zero price) it removes every position,
    oldest first, adding the removal PnL of each to [realized_pnl] and then
    subtracting one fee, and it returns the difference between the
    [realized_pnl] so accumulated and the one before the call; the trade
    count grows by the number of positions. *)
Theorem C7_flatten_inventory :
  forall (BROKER_FEE : Q) (inv : PositionI.t) (reference_price : Q),
    (PositionI.position_count inv = 0%Z ->
     PositionI.flatten_inventory BROKER_FEE inv reference_price
     = Ok (inv, - (1 # 100000000000))) /\
    (PositionI.positions inv <> [] ->
     nonzero_prices (PositionI.positions inv) ->
     exists inv' : PositionI.t,
       PositionI.flatten_inventory BROKER_FEE inv reference_price
       = Ok (inv', PositionI.realized_pnl inv' - PositionI.realized_pnl inv) /\
       PositionI.positions inv' = [] /\
       PositionI.realized_pnl inv'
       = fold_left
           (fun realized position =>
              realized
              + spec_position_pnl (PositionI.side inv) reference_price
                  position
              - BROKER_FEE)
           (PositionI.positions inv) (PositionI.realized_pnl inv) /\
       PositionI.total_trade_count inv'
       = (PositionI.total_trade_count inv + PositionI.position_count inv)%Z).
Proof.
  intros fee inv m. split.
  - apply flatten_inventory_empty.
  - apply flatten_inventory_ok.
Qed.

Lemma C7_flatten_inventory_witness :
  let p1 := Order.mk "BTC-USD" "long" 100 1 1000 1 0 [(100, 1000)] 100 in
  let p2 := Order.mk "BTC-USD" "long" 102 2 1000 2 0 [(102, 1000)] 102 in
  let inv := PositionI.mk 2 [p1; p2] None 0 0 true 202 "long" 101 (1 # 2) 0 in
  exists inv' : PositionI.t,
    PositionI.flatten_inventory (1 # 1000) inv 105
    = Ok (inv', PositionI.realized_pnl inv' - PositionI.realized_pnl inv) /\
    PositionI.positions inv' = [] /\
    PositionI.realized_pnl inv'
    = 0 + (105 - 100) / 100 - (1 # 1000) + (105 - 102) / 102 - (1 # 1000).
Proof.
  intros p1 p2 inv.
  destruct (C7_flatten_inventory (1 # 1000) inv 105) as [_ H].
  destruct H as (inv' & H1 & H2 & H3 & _).
  - discriminate.
  - repeat constructor; simpl; intros E; apply Qeq_bool_iff in E;
      discriminate E.
  - exists inv'. repeat split; assumption.
Defined.

(** C7, as stated, fails on binary64 floats: the change of [realized_pnl]
    is not the sum of the removal PnLs minus the fees.  With a realized PnL
    of 0.1 carried in, one long position at 100 is flattened at 101 with a
    fee of 0.001: the call returns [((0.1 + 0.01) - 0.001) - 0.1], which is
    0.0089999999999999941, while the removal PnL minus the fee,
    [0.01 - 0.001], is 0.0090000000000000011. *)
Lemma C7_counterexample :
  let p := F64.mk_order "BTC-USD" "long" 100 1 1000 1 0 [(100, 1000)%float]
             100 in
  let inv := F64.mk_inventory 1 [p] None 0.1 0 true 100 "long" 100 1 0 in
  exists inv' : F64.inventory,
    F64.flatten_inventory 0.001 inv 101
    = Ok (inv', 0.0089999999999999941%float) /\
    F64.positions inv' = [] /\
    ((101 - 100) / 100 - 0.001 = 0.0090000000000000011)%float /\
    PrimFloat.eqb 0.0089999999999999941 ((101 - 100) / 100 - 0.001) = false.
Proof.
  intros p inv. eexists. split; [vm_compute; reflexivity |].
  repeat split; vm_compute; reflexivity.
Qed.

(** ** Stepping an inventory *)

Lemma step_none (inv : PositionI.t) (bid ask bv sv : Q) (st : Z) :
  PositionI.order inv = None ->
  PositionI.step inv bid ask bv sv st = Ok (inv, false).
Proof.
  intros H. unfold PositionI.step. now rewrite H.
Qed.

Lemma step_not_filled (inv : PositionI.t) (o : Order.t)
    (bid ask bv sv : Q) (st : Z) :
  PositionI.order inv = Some o ->
  Order.is_filled (PositionI.execute o bid ask bv sv) = false ->
  PositionI.step inv bid ask bv sv st
  = Ok (PositionI.set_order inv (Some (PositionI.execute o bid ask bv sv)),
        false).
Proof.
  intros H F. unfold PositionI.step. rewrite H. simpl. now rewrite F.
Qed.

Lemma step_filled (inv : PositionI.t) (o : Order.t)
    (bid ask bv sv : Q) (st : Z) :
  PositionI.order inv = Some o ->
  Order.is_filled (PositionI.execute o bid ask bv sv) = true ->
  PositionI.step inv bid ask bv sv st
  = (' (o', avg) <-
       Order.get_average_execution_price
         (PositionI.execute o bid ask bv sv) ;;
     Ok (booked inv o' avg, true)).
Proof.
  intros H F. unfold PositionI.step. rewrite H. simpl. rewrite F.
  destruct (Order.get_average_execution_price _) as [[o' avg] | e];
    [| reflexivity].
  cbn [bind]. unfold PositionI.position_count. cbn [PositionI.positions
    PositionI.set_positions PositionI.set_total_exposure
    PositionI.total_exposure].
  rewrite py_div_ok.
  - reflexivity.
  - rewrite length_app, Nat.add_1_r. apply count_nonzero.
Qed.

(** C9.  [cancel_order] without an active order returns false and changes
    nothing.  With an active order it returns true and only empties the
    slot: positions, realized PnL, exposure and trade count are as before,
    later steps book nothing (they are no-ops until a new order is placed),
    and an order placed afterwards starts from its own execution state:
    the progress of the cancelled order is dropped. *)
Theorem C9_cancel_order :
  forall inv : PositionI.t,
    (PositionI.order inv = None ->
     PositionI.cancel_order inv = (inv, false)) /\
    (forall o : Order.t,
        PositionI.order inv = Some o ->
        exists inv' : PositionI.t,
          PositionI.cancel_order inv = (inv', true) /\
          PositionI.order inv' = None /\
          PositionI.positions inv' = PositionI.positions inv /\
          PositionI.realized_pnl inv' = PositionI.realized_pnl inv /\
          PositionI.total_trade_count inv' = PositionI.total_trade_count inv /\
          PositionI.total_exposure inv' = PositionI.total_exposure inv /\
          PositionI.average_price inv' = PositionI.average_price inv /\
          PositionI.full_inventory inv' = PositionI.full_inventory inv /\
          (forall (bid ask bv sv : Q) (st : Z),
              PositionI.step inv' bid ask bv sv st = Ok (inv', false)) /\
          (forall new : Order.t,
              PositionI.full_inventory inv = false ->
              PositionI.add_order inv' new
              = (PositionI.set_order inv' (Some new), true))).
Proof.
  intros inv. split.
  - intros H. unfold PositionI.cancel_order. now rewrite H.
  - intros o H. exists (PositionI.set_order inv None).
    unfold PositionI.cancel_order. rewrite H.
    repeat split.
    + intros new F. unfold PositionI.add_order. simpl. now rewrite F.
Qed.

Lemma C9_cancel_order_witness :
  let o := Order.mk "BTC-USD" "long" 100 1 400 1 0 [(100, 400)] (-1) in
  let inv := PositionI.mk 2 [] (Some o) 0 0 false 0 "long" 0 (1 # 2) 0 in
  exists inv' : PositionI.t,
    PositionI.cancel_order inv = (inv', true) /\
    PositionI.order inv' = None /\
    PositionI.positions inv' = [].
Proof.
  intros o inv.
  destruct (C9_cancel_order inv) as [_ H].
  destruct (H o eq_refl) as (inv' & H1 & H2 & H3 & _).
  exists inv'. repeat split; assumption.
Defined.

(** ** The round trip of claim C5 *)

Lemma Qdiv_nonzero (a b : Q) : ~ a == 0 -> ~ b == 0 -> ~ a / b == 0.
Proof.
  intros Ha Hb H. apply Ha.
  setoid_replace a with (a / b * b) by (field; exact Hb).
  rewrite H. ring.
Qed.

Lemma fresh_long_order_fill (_id : Z) (ccy : string) (st0 : Z)
    (P bid ask bv sv : Q) :
  bid <= P -> Order._size <= bv ->
  PositionI.execute (fst (Order.init _id ccy "long" P st0 0)) bid ask bv sv
  = Order.mk ccy "long" P st0 (0 + bv - (0 + bv - Order._size))
      (_id + 1) 0 [(P, bv - (0 + bv - Order._size))] (-1).
Proof.
  intros Hbid Hbv. unfold PositionI.execute. simpl.
  apply Qle_bool_iff in Hbid. rewrite Hbid.
  unfold Order.process_executions, Order.is_filled. simpl.
  assert (F : Qle_bool Order._size (0 + bv) = true)
    by (apply Qle_bool_iff; lra).
  rewrite F. reflexivity.
Qed.

Lemma round4_four_decimals (P : Q) (n : Z) :
  P == inject_Z n / 10000 -> round4 P == P.
Proof.
  intros H.
  assert (Hs : P * 10000 == inject_Z n) by (rewrite H; field).
  assert (Hf : Qfloor (P * 10000) = n)
    by (rewrite (Qfloor_comp _ _ Hs); apply Qfloor_Z).
  unfold round4. rewrite Hf.
  assert (L : Qlt_bool (P * 10000 - inject_Z n) (1 # 2) = true)
    by (apply Qlt_bool_iff; rewrite Hs; lra).
  rewrite L. now rewrite H.
Qed.

(** C5 (amended).  From an empty long inventory, placing a fresh long order
    at a non-zero price [P] with [queue_ahead = 0] and stepping once with
    [bid_price <= P] and a [buy_volume] of at least the lot size (and of at
    most 2^56, beyond which subtracting the lot size is no longer exact on
    binary64 floats) fills the order in that step: [position_count] is 1
    and [average_price] is [P] rounded to 4 decimal places, which is [P]
    itself when [P] is a multiple of 0.0001.  Flattening then at
    [P + delta] empties the inventory and returns
    [((realized_pnl + (P + delta - P) / P) - fee) - realized_pnl], the
    operations being those of the code in their order. *)
Theorem C5_round_trip :
  forall (BROKER_FEE : Q) (inv : PositionI.t) (_id : Z) (ccy : string)
         (st0 st : Z) (P delta bid ask bv sv : Q),
    PositionI.positions inv = [] ->
    PositionI.order inv = None ->
    PositionI.full_inventory inv = false ->
    PositionI.side inv = "long"%string ->
    PositionI.total_exposure inv == 0 ->
    ~ P == 0 ->
    bid <= P ->
    Order._size <= bv ->
    bv <= 72057594037927936 ->
    let o := fst (Order.init _id ccy "long" P st0 0) in
    exists (inv1 inv2 inv3 : PositionI.t) (r : Q),
      PositionI.add_order inv o = (inv1, true) /\
      PositionI.step inv1 bid ask bv sv st = Ok (inv2, true) /\
      PositionI.position_count inv2 = 1%Z /\
      PositionI.average_price inv2 == round4 P /\
      (forall n : Z, P == inject_Z n / 10000 ->
                     PositionI.average_price inv2 == P) /\
      PositionI.flatten_inventory BROKER_FEE inv2 (P + delta) = Ok (inv3, r) /\
      PositionI.position_count inv3 = 0%Z /\
      r = PositionI.realized_pnl inv + (P + delta - P) / P - BROKER_FEE
          - PositionI.realized_pnl inv.
Proof.
  intros fee inv _id ccy st0 st P delta bid ask bv sv
    Hps Hord Hfull Hside Hexp HP Hbid Hbv _ o.
  set (x := bv - (0 + bv - Order._size)).
  assert (Hx : x == 1000) by (unfold x, Order._size; ring).
  assert (Hx0 : ~ x == 0) by (rewrite Hx; lra).
  set (o' := PositionI.execute o bid ask bv sv).
  assert (Eo' : o' = Order.mk ccy "long" P st0 (0 + bv - (0 + bv - Order._size))
                       (_id + 1) 0 [(P, x)] (-1))
    by (apply fresh_long_order_fill; assumption).
  assert (Hfill : Order.is_filled o' = true).
  { rewrite Eo'. unfold Order.is_filled. simpl.
    apply Qle_bool_iff. unfold Order._size. lra. }
  assert (Havg : Order.get_average_execution_price o'
                 = Ok (Order.set_average_exectution_price o' (round4 P),
                       round4 P)).
  { assert (Hk : nonzero_keys (Order.executions o'))
      by (rewrite Eo'; repeat constructor; exact HP).
    assert (Ht : ~ spec_total_weight (Order.executions o') == 0).
    { rewrite Eo'. unfold spec_total_weight, spec_weight. simpl.
      intros H. apply (Qdiv_nonzero x P Hx0 HP). rewrite <- H. ring. }
    rewrite (get_average_execution_price_ok o' Hk Ht).
    assert (E : spec_average_price (Order.executions o') == P).
    { rewrite Eo'. unfold spec_average_price, spec_total_weight, spec_weight.
      simpl. field. split; assumption. }
    now rewrite (round4_comp _ _ E). }
  set (inv1 := PositionI.set_order inv (Some o)).
  set (inv2 := booked inv1
                 (Order.set_average_exectution_price o' (round4 P))
                 (round4 P)).
  assert (Hpos2 : PositionI.positions inv2
                  = [Order.set_average_exectution_price o' (round4 P)])
    by (unfold inv2, booked, inv1; simpl; now rewrite Hps).
  assert (Havg2 : PositionI.average_price inv2 == round4 P).
  { unfold inv2, booked, inv1. simpl. rewrite Hps. simpl.
    rewrite Hexp. field. }
  destruct (flatten_inventory_ok fee inv2 (P + delta))
    as (inv3 & F1 & F2 & F3 & _).
  { rewrite Hpos2. discriminate. }
  { rewrite Hpos2. repeat constructor. rewrite Eo'. exact HP. }
  exists inv1, inv2, inv3,
    (PositionI.realized_pnl inv3 - PositionI.realized_pnl inv2).
  split; [unfold PositionI.add_order; rewrite Hfull, Hord; reflexivity |].
  split.
  { rewrite (step_filled inv1 o bid ask bv sv st eq_refl Hfill).
    fold o'. rewrite Havg. reflexivity. }
  split; [unfold PositionI.position_count; now rewrite Hpos2 |].
  split; [exact Havg2 |].
  split.
  { intros n Hn. rewrite Havg2. exact (round4_four_decimals P n Hn). }
  split; [exact F1 |].
  split; [unfold PositionI.position_count; now rewrite F2 |].
  rewrite F3, Hpos2. unfold realized_after. cbn [fold_left].
  assert (Es : PositionI.side inv2 = "long"%string) by exact Hside.
  rewrite Es. unfold spec_position_pnl. cbn [String.eqb Ascii.eqb Bool.eqb].
  rewrite Eo'. reflexivity.
Qed.

Lemma C5_round_trip_witness :
  let inv := PositionI.mk 1 [] None 0 0 false 0 "long" 0 1 0 in
  let o := fst (Order.init 0 "BTC-USD" "long" 100 5 0) in
  exists (inv1 inv2 inv3 : PositionI.t) (r : Q),
    PositionI.add_order inv o = (inv1, true) /\
    PositionI.step inv1 99 101 1500 0 6 = Ok (inv2, true) /\
    PositionI.position_count inv2 = 1%Z /\
    PositionI.average_price inv2 == 100 /\
    PositionI.flatten_inventory (1 # 1000) inv2 (100 + 2) = Ok (inv3, r) /\
    PositionI.position_count inv3 = 0%Z /\
    r = 0 + (100 + 2 - 100) / 100 - (1 # 1000) - 0.
Proof.
  intros inv o.
  destruct (C5_round_trip (1 # 1000) inv 0 "BTC-USD" 5 6 100 2 99 101 1500 0)
    as (inv1 & inv2 & inv3 & r & H1 & H2 & H3 & _ & H4 & H5 & H6 & H7);
    try reflexivity.
  - intros E. apply Qeq_bool_iff in E. discriminate E.
  - apply Qle_bool_iff. reflexivity.
  - apply Qle_bool_iff. reflexivity.
  - apply Qle_bool_iff. reflexivity.
  - exists inv1, inv2, inv3, r. repeat split; try assumption.
    apply (H4 1000000%Z). reflexivity.
Defined.

(** On binary64 floats the value returned by the flattening of the round
    trip is the code's expression, not [delta / P - fee]: at [P = 100.1],
    [delta = 0.2] and a fee of 0.001 it is 0.0009980019980020266, while
    [0.2 / 100.1 - 0.001] is 0.00099800199800199841. *)
Lemma f64_round_trip_return :
  let p := F64.mk_order "BTC-USD" "long" 100.1 1 1000 1 0
             [(100.1, 1000)%float] 100.1 in
  let inv := F64.mk_inventory 1 [p] None 0 0 true 100.1 "long" 100.1 1 0 in
  exists inv' : F64.inventory,
    F64.flatten_inventory 0.001 inv (100.1 + 0.2)
    = Ok (inv', 0.0009980019980020266%float) /\
    (0 + (100.1 + 0.2 - 100.1) / 100.1 - 0.001 - 0
     = 0.0009980019980020266)%float /\
    (0.2 / 100.1 - 0.001 = 0.00099800199800199841)%float.
Proof.
  intros p inv. eexists. repeat split; vm_compute; reflexivity.
Qed.

(** At the largest volume of the round trip, 2^56, the fill of a fresh
    order is still exact on binary64 floats: [executed] and the recorded
    volume are the lot size. *)
Lemma f64_fill_at_the_volume_bound :
  let o0 := fst (F64.Order_init 0 "BTC-USD" "long" 100.1 0 0) in
  let o := F64.process_executions o0 72057594037927936 in
  F64.executed o = 1000%float /\
  F64.executions o = [(100.1, 1000)%float] /\
  F64.is_filled o = true.
Proof.
  intros o0 o. repeat split; vm_compute; reflexivity.
Qed.

(** C5, as stated, fails on a price with more than 4 decimal places: at
    [P = 1.00006103515625] (a binary fraction, 16385/16384) the order
    fills and is booked, but [average_price] is [1.0001], not [P]. *)
Lemma C5_counterexample :
  let P := 16385 # 16384 in
  let o := fst (Order.init 0 "BTC-USD" "long" P 5 0) in
  exists inv inv2 : PositionI.t,
    PositionI.init "long" 1 = Ok inv /\
    PositionI.step (fst (PositionI.add_order inv o)) 1 2 1000 0 6
    = Ok (inv2, true) /\
    PositionI.position_count inv2 = 1%Z /\
    PositionI.average_price inv2 == 10001 # 10000 /\
    ~ PositionI.average_price inv2 == P.
Proof.
  intros P o. eexists. eexists. split; [vm_compute; reflexivity |].
  split; [vm_compute; reflexivity |].
  split; [reflexivity |]. split.
  - vm_compute. reflexivity.
  - intros E. apply Qeq_bool_iff in E. vm_compute in E. discriminate E.
Qed.

(** ** Amending the active order *)

Lemma Qeq_bool_trans_l (a b c : Q) :
  Qeq_bool a b = true -> Qeq_bool a c = Qeq_bool b c.
Proof.
  intros H. apply Qeq_bool_iff in H.
  destruct (Qeq_bool a c) eqn:E, (Qeq_bool b c) eqn:E'; try reflexivity.
  - apply Qeq_bool_iff in E. apply Qeq_bool_false in E'.
    exfalso. apply E'. now rewrite <- H.
  - apply Qeq_bool_iff in E'. apply Qeq_bool_false in E.
    exfalso. apply E. now rewrite H.
Qed.

Lemma dict_get_set (k w k' : Q) (d : dict) :
  dict_get k' (dict_set k w d)
  = if Qeq_bool k k' then Some w else dict_get k' d.
Proof.
  induction d as [| [k0 v0] r IH]; simpl.
  - reflexivity.
  - destruct (Qeq_bool k0 k) eqn:E; simpl.
    + rewrite <- (Qeq_bool_trans_l k0 k k' E).
      destruct (Qeq_bool k0 k'); reflexivity.
    + rewrite IH. destruct (Qeq_bool k0 k') eqn:E'; [| reflexivity].
      destruct (Qeq_bool k k') eqn:E''; [| reflexivity].
      apply Qeq_bool_iff in E', E''. apply Qeq_bool_false in E.
      exfalso. apply E. now rewrite E', E''.
Qed.



(** The new fill is recorded at its price. *)
Lemma dict_record_new (k x : Q) (d : dict) :
  dict_get k (dict_record k x d)
  = Some (match dict_get k d with Some v => v + x | None => x end).
Proof.
  unfold dict_record.
  destruct (dict_get k d) as [v0 |]; rewrite dict_get_set;
    now rewrite (proj2 (Qeq_bool_iff k k) (Qeq_refl k)).
Qed.








Lemma process_executions_shape (o : Order.t) (v : Q) :
  same_identity o (Order.process_executions o v) /\
  records_fill o (Order.process_executions o v).
Proof.
  unfold same_identity, records_fill, Order.process_executions, dict_record.
  simpl. destruct (Order.is_filled _) eqn:F; unfold Order.is_filled in F;
    simpl in *.
  - split; [destruct (dict_get _ _); simpl; repeat split |].
    exists (v - (Order.executed o + v - Order._size)).
    destruct (dict_get _ _); simpl; repeat split; try ring;
      unfold Order._size; lra.
  - apply Qle_bool_false in F.
    split; [destruct (dict_get _ _); simpl; repeat split |].
    exists (v - 0).
    destruct (dict_get _ _); simpl; repeat split; try ring; lra.
Qed.

Lemma reduce_queue_ahead_shape (o : Order.t) (v : Q) :
  same_identity o (Order.reduce_queue_ahead o v) /\
  ((Order.executions (Order.reduce_queue_ahead o v) = Order.executions o /\
    Order.executed (Order.reduce_queue_ahead o v) = Order.executed o) \/
   records_fill o (Order.reduce_queue_ahead o v)).
Proof.
  unfold Order.reduce_queue_ahead. simpl.
  destruct (Qlt_bool _ _).
  - match goal with
    | |- context [Order.process_executions ?a ?b] =>
        destruct (process_executions_shape a b) as [H1 H2]
    end.
    split; [exact H1 | right; exact H2].
  - split; [repeat split | left; split; reflexivity].
Qed.

Lemma execute_shape (o : Order.t) (bid ask bv sv : Q) :
  same_identity o (PositionI.execute o bid ask bv sv) /\
  ((Order.executions (PositionI.execute o bid ask bv sv)
    = Order.executions o /\
    Order.executed (PositionI.execute o bid ask bv sv) = Order.executed o) \/
   records_fill o (PositionI.execute o bid ask bv sv)).
Proof.
  assert (Hid : same_identity o o /\
    ((Order.executions o = Order.executions o /\
      Order.executed o = Order.executed o) \/ records_fill o o))
    by (split; [repeat split | left; split; reflexivity]).
  unfold PositionI.execute.
  destruct (String.eqb _ "long").
  - destruct (Qle_bool bid _); [| exact Hid].
    destruct (Order.is_first_in_queue o).
    + destruct (process_executions_shape o bv) as [H1 H2].
      split; [exact H1 | right; exact H2].
    + apply reduce_queue_ahead_shape.
  - destruct (String.eqb _ "short"); [| exact Hid].
    destruct (Qle_bool _ ask); [| exact Hid].
    destruct (Order.is_first_in_queue o).
    + destruct (process_executions_shape o sv) as [H1 H2].
      split; [exact H1 | right; exact H2].
    + apply reduce_queue_ahead_shape.
Qed.



(** ** Netting in [Broker.step] *)

Lemma get_average_execution_price_fields (o o' : Order.t) (r : Q) :
  Order.get_average_execution_price o = Ok (o', r) ->
  o' = Order.set_average_exectution_price o r.
Proof.
  unfold Order.get_average_execution_price.
  destruct (Order.sum_weights _ _) as [tv |]; [| discriminate]. simpl.
  destruct (Order.sum_weighted_prices _ _ _) as [avg |]; [| discriminate].
  simpl. now intros [= <- <-].
Qed.

Lemma step_inversion (inv inv1 : PositionI.t) (bid ask bv sv : Q) (st : Z)
    (filled : bool) :
  PositionI.step inv bid ask bv sv st = Ok (inv1, filled) ->
  (filled = false /\
   (PositionI.order inv = None /\ inv1 = inv \/
    exists o, PositionI.order inv = Some o /\
      Order.is_filled (PositionI.execute o bid ask bv sv) = false /\
      inv1 = PositionI.set_order inv
               (Some (PositionI.execute o bid ask bv sv)))) \/
  (filled = true /\
   exists o avg, PositionI.order inv = Some o /\
     Order.is_filled (PositionI.execute o bid ask bv sv) = true /\
     inv1 = booked inv
              (Order.set_average_exectution_price
                 (PositionI.execute o bid ask bv sv) avg) avg).
Proof.
  destruct (PositionI.order inv) as [o |] eqn:Ho.
  - destruct (Order.is_filled (PositionI.execute o bid ask bv sv)) eqn:F.
    + rewrite (step_filled inv o bid ask bv sv st Ho F).
      destruct (Order.get_average_execution_price _) as [[o' avg] |] eqn:G;
        [| discriminate].
      simpl. intros [= <- <-]. right. split; [reflexivity |].
      exists o, avg. rewrite (get_average_execution_price_fields _ _ _ G).
      auto.
    + rewrite (step_not_filled inv o bid ask bv sv st Ho F).
      intros [= <- <-]. left. split; [reflexivity |]. right. exists o. auto.
  - rewrite (step_none inv bid ask bv sv st Ho).
    intros [= <- <-]. left. auto.
Qed.

Lemma pop_position_app (inv : PositionI.t) (ps : list Order.t)
    (p : Order.t) :
  PositionI.positions inv = ps ++ [p] ->
  PositionI.pop_position inv
  = Ok (PositionI.mk
          (PositionI.max_position_count inv) ps (PositionI.order inv)
          (PositionI.realized_pnl inv) (PositionI.unrealized_pnl inv)
          (Z.of_nat (length ps) >=? PositionI.max_position_count inv)%Z
          (PositionI.total_exposure inv - Order.average_exectution_price p)
          (PositionI.side inv)
          (average_of
             (PositionI.total_exposure inv - Order.average_exectution_price p)
             (length ps))
          (PositionI.reward_size inv) (PositionI.total_trade_count inv),
        Some p).
Proof.
  intros H. unfold PositionI.pop_position. rewrite H, list_pop_app.
  destruct ps as [| q ps]; reflexivity.
Qed.

Lemma pop_position_nil (inv : PositionI.t) :
  PositionI.positions inv = [] ->
  PositionI.pop_position inv = Ok (inv, None).
Proof.
  intros H. unfold PositionI.pop_position. now rewrite H.
Qed.

(** C1 (amended).  Let the short inventory hold at least one closed
    position, the oldest being [sp] (of non-zero price), let the step of
    the long inventory report a fill, and let the short side's own active
    order, if any, not be filled by the same step.  Then [Broker.step]
    appends the filled long position [lp] and pops it again, so the long
    side's closed positions are as before; it removes [sp], so the short
    side's count drops by 1; and it returns
    [((sp.price - lp.price) / sp.price) / reward_scale], the reference
    price of the removal being the price of the popped long position. *)
Theorem C1_netting :
  forall (BROKER_FEE : Q) (b : Broker.t) (long1 : PositionI.t)
         (sp : Order.t) (rest : list Order.t)
         (bid ask bv sv : Q) (st : Z),
    PositionI.side (Broker.short_inventory b) = "short"%string ->
    PositionI.positions (Broker.short_inventory b) = sp :: rest ->
    ~ Order.price sp == 0 ->
    ~ BROKER_FEE == 0 ->
    PositionI.step (Broker.long_inventory b) bid ask bv sv st
    = Ok (long1, true) ->
    (forall so : Order.t,
        PositionI.order (Broker.short_inventory b) = Some so ->
        Order.is_filled (PositionI.execute so bid ask bv sv) = false) ->
    exists (b' : Broker.t) (r : Q) (lo lp : Order.t),
      Broker.step BROKER_FEE b bid ask bv sv st = Ok (b', r) /\
      PositionI.order (Broker.long_inventory b) = Some lo /\
      Order.price lp = Order.price lo /\
      PositionI.positions long1
      = PositionI.positions (Broker.long_inventory b) ++ [lp] /\
      PositionI.positions (Broker.long_inventory b')
      = PositionI.positions (Broker.long_inventory b) /\
      PositionI.positions (Broker.short_inventory b') = rest /\
      Broker.long_inventory_count b' = Broker.long_inventory_count b /\
      Broker.short_inventory_count b'
      = (Broker.short_inventory_count b - 1)%Z /\
      PositionI.realized_pnl (Broker.short_inventory b')
      = PositionI.realized_pnl (Broker.short_inventory b)
        + (Order.price sp - Order.price lp) / Order.price sp /\
      r == (Order.price sp - Order.price lp) / Order.price sp
           / Broker.reward_scale BROKER_FEE.
Proof.
  intros fee [long short] long1 sp rest bid ask bv sv st
    Hside Hsp Hprice Hfee Hstep Hshort.
  simpl in *.
  destruct (step_inversion _ _ _ _ _ _ _ _ Hstep)
    as [[F _] | [_ (lo & avg & Hlo & Hfill & ->)]]; [discriminate |].
  set (lp := Order.set_average_exectution_price
               (PositionI.execute lo bid ask bv sv) avg) in *.
  assert (Hlp : Order.price lp = Order.price lo).
  { destruct (execute_shape lo bid ask bv sv) as [(_ & _ & H & _) _].
    exact H. }
  assert (Hscale : ~ Broker.reward_scale fee == 0).
  { unfold Broker.reward_scale. intros H. apply Hfee.
    setoid_replace fee with (fee * 2 / 2) by field. rewrite H. field. }
  unfold Broker.step. cbn [Broker.long_inventory Broker.short_inventory].
  rewrite Hstep. cbn [bind].
  unfold Broker.short_inventory_count, PositionI.position_count.
  cbn [Broker.long_inventory Broker.short_inventory]. rewrite Hsp.
  change (0 <? Z.of_nat (length (sp :: rest)))%Z with true. cbv iota.
  rewrite (pop_position_app (booked long lp avg)
             (PositionI.positions long) lp eq_refl).
  cbn [bind Broker.long_inventory Broker.short_inventory].
  rewrite (remove_position_cons short (Order.price lp) sp rest Hsp).
  rewrite (remove_position_pnl short (Order.price lp) sp Hprice).
  cbn [bind Broker.long_inventory Broker.short_inventory].
  match goal with
  | |- context [PositionI.step ?s bid ask bv sv st] =>
      assert (Hs : PositionI.step s bid ask bv sv st
                   = Ok (PositionI.set_order s
                           (match PositionI.order short with
                            | Some so =>
                                Some (PositionI.execute so bid ask bv sv)
                            | None => None
                            end), false))
  end.
  { destruct (PositionI.order short) as [so |] eqn:Hso.
    - apply step_not_filled; [reflexivity | now apply Hshort].
    - rewrite step_none by reflexivity. reflexivity. }
  rewrite Hs. cbn [bind Broker.long_inventory Broker.short_inventory].
  rewrite (py_div_ok _ _ Hscale). cbn [bind].
  eexists _, _, lo, lp. split; [reflexivity |].
  cbn [Broker.long_inventory Broker.short_inventory].
  unfold Broker.long_inventory_count, Broker.short_inventory_count,
    PositionI.position_count.
  cbn [Broker.long_inventory Broker.short_inventory PositionI.positions
       PositionI.set_order PositionI.realized_pnl booked].
  rewrite Hside. unfold spec_position_pnl. cbn [String.eqb Ascii.eqb Bool.eqb].
  repeat split; try reflexivity; try assumption.
  - cbn [length]. lia.
  - field. split; assumption.
Qed.

Lemma C1_netting_witness :
  let sp := Order.mk "BTC-USD" "short" 100 0 1000 1 0 [(100, 1000)] 100 in
  let lo := Order.mk "BTC-USD" "long" 99 1 0 2 0 [] (-1) in
  let b := Broker.mk
             (PositionI.mk 1 [] (Some lo) 0 0 false 0 "long" 0 1 0)
             (PositionI.mk 1 [sp] None 0 0 true 100 "short" 100 1 0) in
  exists (b' : Broker.t) (r : Q),
    Broker.step (1 # 1000) b 99 100 1000 0 2 = Ok (b', r) /\
    Broker.long_inventory_count b' = 0%Z /\
    Broker.short_inventory_count b' = 0%Z /\
    r == (100 - 99) / 100 / Broker.reward_scale (1 # 1000).
Proof.
  intros sp lo b.
  destruct (C1_netting (1 # 1000) b
              (booked (Broker.long_inventory b)
                 (Order.set_average_exectution_price
                    (PositionI.execute lo 99 100 1000 0) (round4 99))
                 (round4 99))
              sp [] 99 100 1000 0 2%Z)
    as (b' & r & lo' & lp & H1 & H2 & H3 & _ & _ & _ & H4 & H5 & _ & H6).
  - reflexivity.
  - reflexivity.
  - intros E. apply Qeq_bool_iff in E. discriminate E.
  - intros E. apply Qeq_bool_iff in E. discriminate E.
  - vm_compute. reflexivity.
  - intros so E. discriminate E.
  - exists b', r. split; [exact H1 |].
    split; [exact H4 |]. split; [exact H5 |].
    injection H2 as <-. rewrite H6, H3. reflexivity.
Defined.

(** C1, as stated, has the sign of the return value wrong.  A short
    position is sold at 100; a long order at 99 is then filled and netted
    against it.  With a fee of 0.001 (so [reward_scale] is 0.002) the step
    returns [((100 - 99) / 100) / 0.002 = 5], the profit of the short
    position, and not [((99 - 100) / 100) / 0.002 = -5].  The sign does not
    depend on the fee. *)
Lemma C1_counterexample :
  exists (b0 : Broker.t) (p : Process.t) (b : Broker.t) (r : Q),
    Broker.init 1 = Ok b0 /\
    Process.run (1 # 1000) (Process.mk 0 b0)
      [Process.CreateOrder "BTC-USD" "short" 100 0 0;
       Process.BrokerStep 99 100 0 1000 1;
       Process.CreateOrder "BTC-USD" "long" 99 1 0] = Ok p /\
    Broker.short_inventory_count (Process.broker p) = 1%Z /\
    Broker.long_inventory_count (Process.broker p) = 0%Z /\
    Broker.step (1 # 1000) (Process.broker p) 99 100 1000 0 2 = Ok (b, r) /\
    Broker.short_inventory_count b = 0%Z /\
    Broker.long_inventory_count b = 0%Z /\
    r == 5 /\
    ~ r == (99 - 100) / 100 / Broker.reward_scale (1 # 1000).
Proof.
  do 4 eexists.
  split; [vm_compute; reflexivity |].
  split; [vm_compute; reflexivity |].
  split; [reflexivity |]. split; [reflexivity |].
  split; [vm_compute; reflexivity |].
  split; [reflexivity |]. split; [reflexivity |].
  split; [vm_compute; reflexivity |].
  intros E. apply Qeq_bool_iff in E. vm_compute in E. discriminate E.
Qed.

(** When the short side's own order is filled by the same step, the short
    side's count does not drop: one short position is removed by the
    netting and the newly filled one is appended (the long side holding
    nothing to net it against). *)
Lemma netting_when_both_sides_fill :
  let sp := Order.mk "BTC-USD" "short" 100 0 1000 1 0 [(100, 1000)] 100 in
  let so := Order.mk "BTC-USD" "short" 101 1 0 3 0 [] (-1) in
  let lo := Order.mk "BTC-USD" "long" 99 1 0 2 0 [] (-1) in
  let b := Broker.mk
             (PositionI.mk 2 [] (Some lo) 0 0 false 0 "long" 0 (1 # 2) 0)
             (PositionI.mk 2 [sp] (Some so) 0 0 false 100 "short" 100
                (1 # 2) 0) in
  exists (b' : Broker.t) (r : Q),
    Broker.step (1 # 1000) b 99 101 1000 1000 2 = Ok (b', r) /\
    Broker.short_inventory_count b = 1%Z /\
    Broker.short_inventory_count b' = 1%Z.
Proof.
  do 2 eexists. split; [vm_compute; reflexivity |].
  split; reflexivity.
Qed.

(** ** The capacity invariant *)

Lemma list_last_case {A : Type} (l : list A) :
  l = [] \/ exists l' x, l = l' ++ [x].
Proof.
  destruct l as [| a l]; [left; reflexivity | right].
  destruct (exists_last (l := a :: l)) as (l' & x & E); [discriminate |].
  now exists l', x.
Qed.

Lemma geb_false (n m : Z) : (n < m)%Z -> (n >=? m)%Z = false.
Proof.
  intros H. rewrite Z.geb_leb. apply Z.leb_gt. exact H.
Qed.

Ltac inv_simpl :=
  unfold inventory_inv, PositionI.position_count, booked in *;
  cbn [PositionI.positions PositionI.order PositionI.full_inventory
       PositionI.max_position_count PositionI.set_order
       PositionI.set_positions PositionI.set_realized_pnl
       PositionI.set_unrealized_pnl PositionI.set_full_inventory
       PositionI.set_total_exposure PositionI.set_average_price
       PositionI.set_total_trade_count PositionI.reset fst] in *.

Lemma init_inv (side : string) (max_position : Z) (inv : PositionI.t) :
  (1 <= max_position)%Z ->
  PositionI.init side max_position = Ok inv -> inventory_inv inv.
Proof.
  intros Hmax. unfold PositionI.init.
  destruct (py_div 1 _) as [rs |]; [| discriminate]. simpl.
  intros [= <-]. inv_simpl. cbn [length Z.of_nat].
  repeat split; try lia; try congruence.
Qed.

Lemma reset_inv (inv : PositionI.t) :
  inventory_inv inv -> inventory_inv (PositionI.reset inv).
Proof.
  intros (Hmax & _). inv_simpl. cbn [length Z.of_nat].
  repeat split; try lia; try congruence.
Qed.

Lemma add_order_inv (inv : PositionI.t) (o : Order.t) :
  inventory_inv inv -> inventory_inv (fst (PositionI.add_order inv o)).
Proof.
  intros Hinv. unfold PositionI.add_order.
  destruct (PositionI.full_inventory inv) eqn:F; cbn [negb fst];
    [exact Hinv |].
  destruct Hinv as (Hmax & Hc & Hf & Ho).
  assert (Hlt : (PositionI.position_count inv
                 < PositionI.max_position_count inv)%Z).
  { rewrite F in Hf. symmetry in Hf. rewrite Z.geb_leb in Hf.
    apply Z.leb_gt in Hf. exact Hf. }
  destruct (PositionI.order inv); inv_simpl; repeat split; auto.
Qed.

Lemma cancel_order_inv (inv : PositionI.t) :
  inventory_inv inv -> inventory_inv (fst (PositionI.cancel_order inv)).
Proof.
  intros Hinv. unfold PositionI.cancel_order.
  destruct (PositionI.order inv) eqn:E; cbn [fst]; [| exact Hinv].
  destruct Hinv as (Hmax & Hc & Hf & Ho).
  inv_simpl. repeat split; auto; congruence.
Qed.

Lemma step_inv (inv inv' : PositionI.t) (bid ask bv sv : Q) (st : Z)
    (filled : bool) :
  PositionI.step inv bid ask bv sv st = Ok (inv', filled) ->
  inventory_inv inv -> inventory_inv inv'.
Proof.
  intros H Hinv.
  destruct (step_inversion _ _ _ _ _ _ _ _ H)
    as [[_ [[_ ->] | (o & Hso & _ & ->)]] | [_ (o & avg & Hso & _ & ->)]].
  - exact Hinv.
  - destruct Hinv as (Hmax & Hc & Hf & Ho).
    inv_simpl. repeat split; auto; intros _; apply Ho; congruence.
  - destruct Hinv as (Hmax & Hc & Hf & Ho).
    assert (Hlt : (PositionI.position_count inv
                   < PositionI.max_position_count inv)%Z)
      by (apply Ho; congruence).
    inv_simpl. rewrite length_app. cbn [length].
    repeat split; auto; try lia; congruence.
Qed.

Lemma pop_position_inv (inv inv' : PositionI.t) (p : option Order.t) :
  PositionI.pop_position inv = Ok (inv', p) ->
  inventory_inv inv -> inventory_inv inv'.
Proof.
  intros H Hinv.
  destruct (list_last_case (PositionI.positions inv))
    as [E | (ps & x & E)].
  - rewrite (pop_position_nil inv E) in H. now injection H as <- _.
  - rewrite (pop_position_app inv ps x E) in H. injection H as <- _.
    destruct Hinv as (Hmax & Hc & Hf & Ho).
    inv_simpl. rewrite E, length_app in *. cbn [length] in *.
    repeat split; auto; try lia; intros Hn; specialize (Ho Hn); lia.
Qed.

Lemma remove_position_inv (inv inv' : PositionI.t) (m pnl : Q) :
  PositionI.remove_position inv m = Ok (inv', pnl) ->
  inventory_inv inv -> inventory_inv inv'.
Proof.
  intros H Hinv.
  destruct (PositionI.positions inv) as [| p rest] eqn:E.
  - rewrite (remove_position_nil inv m E) in H. now injection H as <- _.
  - rewrite (remove_position_cons inv m p rest E) in H.
    destruct (if String.eqb _ _ then _ else _) as [pnl0 |]; [| discriminate].
    cbn [bind] in H. injection H as <- _.
    destruct Hinv as (Hmax & Hc & Hf & Ho).
    inv_simpl. rewrite E in *. cbn [length] in *.
    repeat split; auto; try lia; intros Hn; specialize (Ho Hn); lia.
Qed.

Lemma set_realized_pnl_inv (inv : PositionI.t) (x : Q) :
  inventory_inv inv -> inventory_inv (PositionI.set_realized_pnl inv x).
Proof.
  intros Hinv. exact Hinv.
Qed.

Lemma flatten_loop_inv (fee m : Q) (fuel : nat) :
  forall inv inv' : PositionI.t,
    PositionI.flatten_loop fee fuel inv m = Ok inv' ->
    inventory_inv inv -> inventory_inv inv'.
Proof.
  induction fuel as [| fuel IH]; intros inv inv'; simpl.
  - destruct (0 <? _)%Z; now intros [= <-].
  - destruct (0 <? _)%Z; [| now intros [= <-]].
    destruct (PositionI.remove_position inv m) as [[inv1 pnl] |] eqn:R;
      [| discriminate].
    simpl. intros H Hinv. apply (IH _ _ H).
    apply set_realized_pnl_inv. exact (remove_position_inv _ _ _ _ R Hinv).
Qed.

Lemma flatten_inventory_inv (fee : Q) (inv inv' : PositionI.t) (m r : Q) :
  PositionI.flatten_inventory fee inv m = Ok (inv', r) ->
  inventory_inv inv -> inventory_inv inv'.
Proof.
  unfold PositionI.flatten_inventory.
  destruct (_ <? 1)%Z; [now intros [= <- _] |].
  destruct (PositionI.flatten_loop _ _ _ _) as [inv1 |] eqn:L;
    [| discriminate].
  simpl. intros [= <- _]. exact (flatten_loop_inv _ _ _ _ _ L).
Qed.

Lemma inventory_do_inv (fee : Q) (inv inv' : PositionI.t)
    (c : inventory_call) :
  inventory_do fee inv c = Ok inv' ->
  inventory_inv inv -> inventory_inv inv'.
Proof.
  destruct c; simpl.
  - intros [= <-]. apply add_order_inv.
  - intros [= <-]. apply cancel_order_inv.
  - destruct (PositionI.step _ _ _ _ _ _) as [[inv1 f] |] eqn:S;
      [| discriminate].
    simpl. intros [= <-]. exact (step_inv _ _ _ _ _ _ _ _ S).
  - destruct (PositionI.pop_position _) as [[inv1 p] |] eqn:S;
      [| discriminate].
    simpl. intros [= <-]. exact (pop_position_inv _ _ _ S).
  - destruct (PositionI.remove_position _ _) as [[inv1 p] |] eqn:S;
      [| discriminate].
    simpl. intros [= <-]. exact (remove_position_inv _ _ _ _ S).
  - destruct (PositionI.flatten_inventory _ _ _) as [[inv1 p] |] eqn:S;
      [| discriminate].
    simpl. intros [= <-]. exact (flatten_inventory_inv _ _ _ _ _ S).
  - intros [= <-]. apply reset_inv.
Qed.

Lemma inventory_run_inv (fee : Q) (cs : list inventory_call) :
  forall inv inv' : PositionI.t,
    inventory_run fee inv cs = Ok inv' ->
    inventory_inv inv -> inventory_inv inv'.
Proof.
  induction cs as [| c cs IH]; intros inv inv'; simpl.
  - now intros [= <-].
  - destruct (inventory_do fee inv c) as [inv1 |] eqn:D; [| discriminate].
    simpl. intros H Hinv. apply (IH _ _ H).
    exact (inventory_do_inv _ _ _ _ D Hinv).
Qed.

(** ** What no method changes: capacity, side and reward size *)

Lemma same_config_refl (inv : PositionI.t) : same_config inv inv.
Proof. repeat split. Qed.

Lemma same_config_trans (a b c : PositionI.t) :
  same_config a b -> same_config b c -> same_config a c.
Proof.
  unfold same_config. intros (H1 & H2 & H3) (H4 & H5 & H6).
  repeat split; congruence.
Qed.

Lemma step_config (inv inv' : PositionI.t) (bid ask bv sv : Q) (st : Z)
    (filled : bool) :
  PositionI.step inv bid ask bv sv st = Ok (inv', filled) ->
  same_config inv inv'.
Proof.
  intros H.
  destruct (step_inversion _ _ _ _ _ _ _ _ H)
    as [[_ [[_ ->] | (o & _ & _ & ->)]] | [_ (o & avg & _ & _ & ->)]];
    repeat split.
Qed.

Lemma pop_position_config (inv inv' : PositionI.t) (p : option Order.t) :
  PositionI.pop_position inv = Ok (inv', p) -> same_config inv inv'.
Proof.
  intros H.
  destruct (list_last_case (PositionI.positions inv))
    as [E | (ps & x & E)].
  - rewrite (pop_position_nil inv E) in H. injection H as <- _.
    apply same_config_refl.
  - rewrite (pop_position_app inv ps x E) in H. injection H as <- _.
    repeat split.
Qed.

Lemma remove_position_config (inv inv' : PositionI.t) (m pnl : Q) :
  PositionI.remove_position inv m = Ok (inv', pnl) -> same_config inv inv'.
Proof.
  intros H.
  destruct (PositionI.positions inv) as [| p rest] eqn:E.
  - rewrite (remove_position_nil inv m E) in H. injection H as <- _.
    apply same_config_refl.
  - rewrite (remove_position_cons inv m p rest E) in H.
    destruct (if String.eqb _ _ then _ else _) as [pnl0 |]; [| discriminate].
    cbn [bind] in H. injection H as <- _. repeat split.
Qed.

Lemma flatten_loop_config (fee m : Q) (fuel : nat) :
  forall inv inv' : PositionI.t,
    PositionI.flatten_loop fee fuel inv m = Ok inv' -> same_config inv inv'.
Proof.
  induction fuel as [| fuel IH]; intros inv inv'; simpl.
  - destruct (0 <? _)%Z; intros [= <-]; apply same_config_refl.
  - destruct (0 <? _)%Z; [| intros [= <-]; apply same_config_refl].
    destruct (PositionI.remove_position inv m) as [[inv1 pnl] |] eqn:R;
      [| discriminate].
    simpl. intros H.
    apply (same_config_trans _ inv1); [exact (remove_position_config _ _ _ _ R) |].
    apply (same_config_trans _ _ _ (same_config_refl _) (IH _ _ H)).
Qed.

Lemma flatten_inventory_config (fee : Q) (inv inv' : PositionI.t) (m r : Q) :
  PositionI.flatten_inventory fee inv m = Ok (inv', r) ->
  same_config inv inv'.
Proof.
  unfold PositionI.flatten_inventory.
  destruct (_ <? 1)%Z; [intros [= <- _]; apply same_config_refl |].
  destruct (PositionI.flatten_loop _ _ _ _) as [inv1 |] eqn:L;
    [| discriminate].
  simpl. intros [= <- _]. exact (flatten_loop_config _ _ _ _ _ L).
Qed.

Lemma add_order_config (inv : PositionI.t) (o : Order.t) :
  same_config inv (fst (PositionI.add_order inv o)).
Proof.
  unfold PositionI.add_order.
  destruct (negb _); [destruct (PositionI.order inv) |]; repeat split.
Qed.

Lemma inventory_do_config (fee : Q) (inv inv' : PositionI.t)
    (c : inventory_call) :
  inventory_do fee inv c = Ok inv' -> same_config inv inv'.
Proof.
  destruct c; simpl.
  - intros [= <-]. apply add_order_config.
  - intros [= <-]. unfold PositionI.cancel_order.
    destruct (PositionI.order inv); repeat split.
  - destruct (PositionI.step _ _ _ _ _ _) as [[inv1 f] |] eqn:S;
      [| discriminate].
    simpl. intros [= <-]. exact (step_config _ _ _ _ _ _ _ _ S).
  - destruct (PositionI.pop_position _) as [[inv1 p] |] eqn:S;
      [| discriminate].
    simpl. intros [= <-]. exact (pop_position_config _ _ _ S).
  - destruct (PositionI.remove_position _ _) as [[inv1 p] |] eqn:S;
      [| discriminate].
    simpl. intros [= <-]. exact (remove_position_config _ _ _ _ S).
  - destruct (PositionI.flatten_inventory _ _ _) as [[inv1 p] |] eqn:S;
      [| discriminate].
    simpl. intros [= <-]. exact (flatten_inventory_config _ _ _ _ _ S).
  - intros [= <-]. repeat split.
Qed.

Lemma inventory_run_config (fee : Q) (cs : list inventory_call) :
  forall inv inv' : PositionI.t,
    inventory_run fee inv cs = Ok inv' -> same_config inv inv'.
Proof.
  induction cs as [| c cs IH]; intros inv inv'; simpl.
  - intros [= <-]. apply same_config_refl.
  - destruct (inventory_do fee inv c) as [inv1 |] eqn:D; [| discriminate].
    simpl. intros H.
    exact (same_config_trans _ _ _ (inventory_do_config _ _ _ _ D) (IH _ _ H)).
Qed.

(** C8.  In every state that an inventory of capacity [max_position >= 1]
    reaches from its initial state by [add_order], [step], [pop_position],
    [remove_position] and [flatten_inventory] calls (and by [cancel_order]
    and [reset] calls as well), [position_count] is at most [max_position],
    the [full_inventory] flag equals [position_count >= max_position], and
    there is at most one active order. *)
Theorem C8_capacity_invariant :
  forall (BROKER_FEE : Q) (side : string) (max_position : Z)
         (calls : list inventory_call) (inv0 inv : PositionI.t),
    (1 <= max_position)%Z ->
    PositionI.init side max_position = Ok inv0 ->
    inventory_run BROKER_FEE inv0 calls = Ok inv ->
    (PositionI.position_count inv <= max_position)%Z /\
    PositionI.full_inventory inv
    = (PositionI.position_count inv >=? max_position)%Z /\
    (length (active_orders inv) <= 1)%nat.
Proof.
  intros fee side max_position calls inv0 inv Hmax Hinit Hrun.
  assert (Hm : PositionI.max_position_count inv = max_position).
  { destruct (inventory_run_config fee calls inv0 inv Hrun) as (-> & _).
    unfold PositionI.init in Hinit.
    destruct (py_div 1 _); [| discriminate]. now injection Hinit as <-. }
  destruct (inventory_run_inv fee calls inv0 inv Hrun
              (init_inv side max_position inv0 Hmax Hinit))
    as (_ & Hc & Hf & _).
  rewrite Hm in Hc, Hf. repeat split; auto.
  unfold active_orders. destruct (PositionI.order inv); simpl; lia.
Qed.

Lemma C8_capacity_invariant_witness :
  let inv0 := PositionI.mk 1 [] None 0 0 false 0 "long" 0 (1 / inject_Z 1) 0 in
  let calls :=
    [AddOrder (fst (Order.init 0 "BTC-USD" "long" 100 0 0));
     Step 99 101 1000 0 1;
     AddOrder (fst (Order.init 1 "BTC-USD" "long" 100 1 0));
     FlattenInventory 102] in
  exists inv : PositionI.t,
    inventory_run (1 # 1000) inv0 calls = Ok inv /\
    (PositionI.position_count inv <= 1)%Z /\
    PositionI.full_inventory inv = (PositionI.position_count inv >=? 1)%Z /\
    (length (active_orders inv) <= 1)%nat.
Proof.
  intros inv0 calls. eexists.
  split; [vm_compute; reflexivity |].
  apply (C8_capacity_invariant (1 # 1000) "long" 1 calls inv0).
  - lia.
  - reflexivity.
  - vm_compute. reflexivity.
Defined.

(** ** Resetting, and the order id counter *)

Lemma reset_of_init (side : string) (max_position : Z)
    (inv0 inv : PositionI.t) :
  PositionI.init side max_position = Ok inv0 ->
  same_config inv0 inv ->
  PositionI.reset inv = inv0.
Proof.
  unfold PositionI.init. destruct (py_div 1 _) as [rs |]; [| discriminate].
  simpl. intros [= <-] (H1 & H2 & H3).
  destruct inv. simpl in *. now subst.
Qed.

Lemma broker_config_refl (b : Broker.t) : broker_config b b.
Proof. split; apply same_config_refl. Qed.

Lemma broker_config_trans (a b c : Broker.t) :
  broker_config a b -> broker_config b c -> broker_config a c.
Proof.
  intros [H1 H2] [H3 H4]. split; eapply same_config_trans; eassumption.
Qed.

Lemma broker_add_config (b : Broker.t) (o : Order.t) :
  broker_config b (fst (Broker.add b o)).
Proof.
  unfold Broker.add.
  destruct (String.eqb _ "long").
  - pose proof (add_order_config (Broker.long_inventory b) o) as H.
    destruct (PositionI.add_order _ _) as [inv ok]. simpl in *.
    split; [exact H | apply same_config_refl].
  - destruct (String.eqb _ "short"); [| apply broker_config_refl].
    pose proof (add_order_config (Broker.short_inventory b) o) as H.
    destruct (PositionI.add_order _ _) as [inv ok]. simpl in *.
    split; [apply same_config_refl | exact H].
Qed.

Lemma broker_reset_config (b : Broker.t) : broker_config b (Broker.reset b).
Proof. split; repeat split. Qed.

Lemma broker_flatten_config (fee : Q) (b b' : Broker.t) (bid ask r : Q) :
  Broker.flatten_inventory fee b bid ask = Ok (b', r) -> broker_config b b'.
Proof.
  unfold Broker.flatten_inventory.
  destruct (PositionI.flatten_inventory fee (Broker.long_inventory b) bid)
    as [[long t] |] eqn:L; [| discriminate].
  cbn [bind Broker.short_inventory Broker.long_inventory].
  destruct (PositionI.flatten_inventory fee (Broker.short_inventory b) ask)
    as [[short d] |] eqn:S; [| discriminate].
  cbn [bind Broker.short_inventory Broker.long_inventory].
  assert (C : broker_config b (Broker.mk long short)).
  { split; simpl;
      [exact (flatten_inventory_config _ _ _ _ _ L)
      | exact (flatten_inventory_config _ _ _ _ _ S)]. }
  destruct (negb _).
  - destruct (py_div _ _); [| discriminate]. cbn [bind].
    now intros [= <- _].
  - now intros [= <- _].
Qed.

(** The second half of [Broker.step]: the short side is stepped and netted
    against the long side. *)
Lemma broker_step_short_config (fee : Q) (b b' : Broker.t)
    (bid ask bv sv : Q) (st : Z) (pnl r : Q) :
  (' (short, filled) <-
     PositionI.step (Broker.short_inventory b) bid ask bv sv st ;;
   let self := Broker.mk (Broker.long_inventory b) short in
   ' (self, pnl) <-
     (if filled then
        if (0 <? Broker.long_inventory_count self)%Z then
          ' (short, new_position) <-
            PositionI.pop_position (Broker.short_inventory self) ;;
          let self := Broker.mk (Broker.long_inventory self) short in
          match new_position with
          | None => Raise AttributeError
          | Some new_position =>
              ' (long, d) <-
                PositionI.remove_position (Broker.long_inventory self)
                  (Order.price new_position) ;;
              Ok (Broker.mk long (Broker.short_inventory self), pnl + d)
          end
        else Ok (self, pnl)
      else Ok (self, pnl)) ;;
   r <- py_div pnl (Broker.reward_scale fee) ;;
   Ok (self, r)) = Ok (b', r) ->
  broker_config b b'.
Proof.
  destruct b as [long short].
  cbn [Broker.long_inventory Broker.short_inventory].
  destruct (PositionI.step short bid ask bv sv st) as [[short1 f] |] eqn:S;
    [| discriminate].
  cbn [bind Broker.long_inventory Broker.short_inventory].
  unfold Broker.long_inventory_count.
  cbn [Broker.long_inventory Broker.short_inventory].
  pose proof (step_config _ _ _ _ _ _ _ _ S) as C1.
  assert (E : forall x, (r0 <- py_div x (Broker.reward_scale fee) ;;
                         Ok (Broker.mk long short1, r0)) = Ok (b', r) ->
                        broker_config (Broker.mk long short) b').
  { intros x. destruct (py_div _ _); [| discriminate]. cbn [bind].
    intros [= <- _]. split; [apply same_config_refl | exact C1]. }
  destruct f; [| apply E].
  destruct (0 <? _)%Z; [| apply E].
  destruct (PositionI.pop_position short1) as [[short2 np] |] eqn:P;
    [| discriminate].
  cbn [bind Broker.long_inventory Broker.short_inventory].
  destruct np as [np |]; [| discriminate].
  destruct (PositionI.remove_position long _) as [[long2 d] |] eqn:R;
    [| discriminate].
  cbn [bind Broker.long_inventory Broker.short_inventory].
  destruct (py_div _ _); [| discriminate]. cbn [bind].
  intros [= <- _]. split; simpl.
  - exact (remove_position_config _ _ _ _ R).
  - exact (same_config_trans _ _ _ C1 (pop_position_config _ _ _ P)).
Qed.

Lemma broker_step_config (fee : Q) (b b' : Broker.t) (bid ask bv sv : Q)
    (st : Z) (r : Q) :
  Broker.step fee b bid ask bv sv st = Ok (b', r) -> broker_config b b'.
Proof.
  destruct b as [long short]. unfold Broker.step.
  cbn [Broker.long_inventory Broker.short_inventory].
  destruct (PositionI.step long bid ask bv sv st) as [[long1 f] |] eqn:S;
    [| discriminate].
  cbn [bind Broker.long_inventory Broker.short_inventory].
  unfold Broker.short_inventory_count.
  cbn [Broker.long_inventory Broker.short_inventory].
  pose proof (step_config _ _ _ _ _ _ _ _ S) as C1.
  assert (E : forall pnl,
             (' (short0, filled) <- PositionI.step short bid ask bv sv st ;;
              let self := Broker.mk long1 short0 in
              ' (self, pnl) <-
                (if filled then
                   if (0 <? Broker.long_inventory_count self)%Z then
                     ' (short1, new_position) <-
                       PositionI.pop_position (Broker.short_inventory self) ;;
                     let self :=
                       Broker.mk (Broker.long_inventory self) short1 in
                     match new_position with
                     | None => Raise AttributeError
                     | Some new_position =>
                         ' (long0, d) <-
                           PositionI.remove_position
                             (Broker.long_inventory self)
                             (Order.price new_position) ;;
                         Ok (Broker.mk long0 (Broker.short_inventory self),
                             pnl + d)
                     end
                   else Ok (self, pnl)
                 else Ok (self, pnl)) ;;
              r0 <- py_div pnl (Broker.reward_scale fee) ;;
              Ok (self, r0)) = Ok (b', r) ->
             broker_config (Broker.mk long short) b').
  { intros pnl H.
    apply (broker_config_trans _ (Broker.mk long1 short)).
    - split; [exact C1 | apply same_config_refl].
    - exact (broker_step_short_config fee (Broker.mk long1 short) b'
               bid ask bv sv st pnl r H). }
  destruct f; [| apply E].
  destruct (0 <? _)%Z; [| apply E].
  destruct (PositionI.pop_position long1) as [[long2 np] |] eqn:P;
    [| discriminate].
  cbn [bind Broker.long_inventory Broker.short_inventory].
  destruct np as [np |]; [| discriminate].
  destruct (PositionI.remove_position short _) as [[short2 d] |] eqn:R;
    [| discriminate].
  cbn [bind Broker.long_inventory Broker.short_inventory].
  intros H.
  apply (broker_config_trans _ (Broker.mk long2 short2)).
  - split; simpl.
    + exact (same_config_trans _ _ _ C1 (pop_position_config _ _ _ P)).
    + exact (remove_position_config _ _ _ _ R).
  - exact (broker_step_short_config fee (Broker.mk long2 short2) b'
             bid ask bv sv st (0 + d) r H).
Qed.

Lemma exec_config (fee : Q) (p p' : Process.t) (c : Process.command) :
  Process.exec fee p c = Ok p' ->
  broker_config (Process.broker p) (Process.broker p').
Proof.
  destruct c; simpl.
  - intros [= <-]. apply broker_add_config.
  - destruct (Broker.step _ _ _ _ _ _ _) as [[b r] |] eqn:S; [| discriminate].
    simpl. intros [= <-]. exact (broker_step_config _ _ _ _ _ _ _ _ _ S).
  - destruct (Broker.flatten_inventory _ _ _ _) as [[b r] |] eqn:S;
      [| discriminate].
    simpl. intros [= <-]. exact (broker_flatten_config _ _ _ _ _ _ S).
  - intros [= <-]. apply broker_reset_config.
Qed.

Lemma exec_counter (fee : Q) (p p' : Process.t) (c : Process.command) :
  Process.exec fee p c = Ok p' ->
  Process.Order__id p'
  = (Process.Order__id p + Z.of_nat (created [c]))%Z.
Proof.
  destruct c; simpl.
  - intros [= <-]. reflexivity.
  - destruct (Broker.step _ _ _ _ _ _ _) as [[b r] |]; [| discriminate].
    simpl. intros [= <-]. simpl. lia.
  - destruct (Broker.flatten_inventory _ _ _ _) as [[b r] |];
      [| discriminate].
    simpl. intros [= <-]. simpl. lia.
  - intros [= <-]. simpl. lia.
Qed.

Lemma run_config_counter (fee : Q) (cs : list Process.command) :
  forall p p' : Process.t,
    Process.run fee p cs = Ok p' ->
    broker_config (Process.broker p) (Process.broker p') /\
    Process.Order__id p'
    = (Process.Order__id p + Z.of_nat (created cs))%Z.
Proof.
  induction cs as [| c cs IH]; intros p p'; simpl.
  - intros [= <-]. split; [apply broker_config_refl | lia].
  - destruct (Process.exec fee p c) as [p1 |] eqn:E; [| discriminate].
    simpl. intros H. destruct (IH _ _ H) as [C N].
    split.
    + exact (broker_config_trans _ _ _ (exec_config _ _ _ _ E) C).
    + rewrite N, (exec_counter _ _ _ _ E).
      destruct c; simpl; lia.
Qed.

Lemma issued_ids_seq (cs : list Process.command) :
  forall _id : Z,
    Process.issued_ids _id cs
    = map (fun k => (_id + Z.of_nat k)%Z) (seq 1 (created cs)).
Proof.
  induction cs as [| c cs IH]; intros _id; simpl; [reflexivity |].
  destruct c; simpl; try apply IH.
  rewrite IH. f_equal; try lia.
  rewrite <- (seq_shift (created cs) 1), map_map.
  apply map_ext. intros k. lia.
Qed.

Lemma created_app_reset (cs : list Process.command) :
  created (cs ++ [Process.BrokerReset]) = created cs.
Proof.
  induction cs as [| c cs IH]; simpl; [reflexivity |].
  destruct c; simpl; now rewrite IH.
Qed.

Lemma init_cleared (side : string) (max_position : Z) (inv : PositionI.t) :
  PositionI.init side max_position = Ok inv -> cleared inv.
Proof.
  unfold PositionI.init. destruct (py_div 1 _); [| discriminate].
  simpl. intros [= <-]. repeat split.
Qed.

(** C10.  From a broker built by [Broker.init], after any run of the
    process, [Broker.reset] gives back the initial broker: on both sides
    the positions are emptied, the active order is cleared, realized and
    unrealized PnL, total exposure, average price and trade count are zero
    and [full_inventory] is false.  The reset leaves the class counter
    [Order._id] as it is: over a run the counter has grown by the number of
    orders created, the ids handed out are [_id + 1, _id + 2, ...] whatever
    resets lie in between, and the next order created after the reset gets
    the id [Order._id + 1]. *)
Theorem C10_reset_keeps_counter :
  forall (BROKER_FEE : Q) (max_position _id : Z) (b0 : Broker.t)
         (cs : list Process.command) (p : Process.t),
    Broker.init max_position = Ok b0 ->
    Process.run BROKER_FEE (Process.mk _id b0) cs = Ok p ->
    let b := Broker.reset (Process.broker p) in
    b = b0 /\
    cleared (Broker.long_inventory b) /\
    cleared (Broker.short_inventory b) /\
    Process.exec BROKER_FEE p Process.BrokerReset
    = Ok (Process.mk (Process.Order__id p) b) /\
    Process.Order__id p = (_id + Z.of_nat (created cs))%Z /\
    Process.issued_ids _id (cs ++ [Process.BrokerReset])
    = map (fun k => (_id + Z.of_nat k)%Z) (seq 1 (created cs)) /\
    (forall (ccy side : string) (price : Q) (step : Z) (queue_ahead : Q),
        let '(o, next) :=
          Order.init (Process.Order__id p) ccy side price step queue_ahead in
        Order.id o = (Process.Order__id p + 1)%Z /\
        next = (Process.Order__id p + 1)%Z).
Proof.
  intros fee max_position _id b0 cs p Hinit Hrun b.
  destruct (run_config_counter fee cs _ _ Hrun) as [[CL CS] N].
  simpl in CL, CS, N.
  unfold Broker.init in Hinit.
  destruct (PositionI.init "long" max_position) as [l0 |] eqn:L;
    [| discriminate].
  destruct (PositionI.init "short" max_position) as [s0 |] eqn:S;
    [| discriminate].
  simpl in Hinit. injection Hinit as <-. simpl in CL, CS.
  assert (Eb : b = Broker.mk l0 s0).
  { unfold b, Broker.reset. simpl.
    rewrite (reset_of_init _ _ _ _ L CL), (reset_of_init _ _ _ _ S CS).
    reflexivity. }
  split; [exact Eb |].
  split; [rewrite Eb; exact (init_cleared _ _ _ L) |].
  split; [rewrite Eb; exact (init_cleared _ _ _ S) |].
  split; [reflexivity |].
  split; [exact N |].
  split.
  - rewrite issued_ids_seq, created_app_reset. reflexivity.
  - intros ccy side price step queue_ahead. simpl. split; reflexivity.
Qed.

Lemma C10_reset_keeps_counter_witness :
  let b0 := Broker.mk
              (PositionI.mk 1 [] None 0 0 false 0 "long" 0 (1 / inject_Z 1) 0)
              (PositionI.mk 1 [] None 0 0 false 0 "short" 0 (1 / inject_Z 1) 0) in
  let cs := [Process.CreateOrder "BTC-USD" "long" 100 0 0;
             Process.BrokerStep 99 101 1000 0 1;
             Process.BrokerReset;
             Process.CreateOrder "BTC-USD" "short" 101 2 0] in
  exists p : Process.t,
    Process.run (1 # 1000) (Process.mk 7 b0) cs = Ok p /\
    Broker.reset (Process.broker p) = b0 /\
    Process.Order__id p = 9%Z /\
    Process.issued_ids 7 (cs ++ [Process.BrokerReset]) = [8%Z; 9%Z].
Proof.
  intros b0 cs.
  destruct (Process.run (1 # 1000) (Process.mk 7 b0) cs) as [p |] eqn:Hrun;
    [| vm_compute in Hrun; discriminate Hrun].
  exists p. split; [reflexivity |].
  destruct (C10_reset_keeps_counter (1 # 1000) 1 7 b0 cs p eq_refl Hrun)
    as (H1 & _ & _ & _ & H2 & H3 & _).
  repeat split; assumption.
Defined.

(** * Further properties of the engine *)

(** ** Popping a position *)

(** X1.  [pop_position] never raises.  On an inventory with positions it
    removes and returns the most recently appended one, takes its average
    execution price out of the total exposure, recomputes the average price
    and the flag, and books nothing: realized PnL, trade count and active
    order are as before.  On an empty inventory it returns [None] and the
    inventory is unchanged. *)
Theorem X1_pop_position_lifo :
  forall inv : PositionI.t,
    (forall (ps : list Order.t) (p : Order.t),
        PositionI.positions inv = ps ++ [p] ->
        exists inv' : PositionI.t,
          PositionI.pop_position inv = Ok (inv', Some p) /\
          PositionI.positions inv' = ps /\
          PositionI.total_exposure inv'
          = PositionI.total_exposure inv - Order.average_exectution_price p /\
          PositionI.average_price inv'
          = average_of (PositionI.total_exposure inv') (length ps) /\
          PositionI.full_inventory inv'
          = (PositionI.position_count inv'
             >=? PositionI.max_position_count inv)%Z /\
          PositionI.realized_pnl inv' = PositionI.realized_pnl inv /\
          PositionI.total_trade_count inv' = PositionI.total_trade_count inv /\
          PositionI.order inv' = PositionI.order inv) /\
    (PositionI.positions inv = [] ->
     PositionI.pop_position inv = Ok (inv, None)).
Proof.
  intros inv. split.
  - intros ps p H. rewrite (pop_position_app inv ps p H).
    eexists. split; [reflexivity |]. repeat split.
  - apply pop_position_nil.
Qed.

Lemma X1_pop_position_lifo_witness :
  let p1 := Order.mk "BTC-USD" "long" 100 1 1000 1 0 [(100, 1000)] 100 in
  let p2 := Order.mk "BTC-USD" "long" 102 2 1000 2 0 [(102, 1000)] 102 in
  let inv := PositionI.mk 2 [p1; p2] None 0 0 true 202 "long" 101 (1 # 2) 0 in
  exists inv' : PositionI.t,
    PositionI.pop_position inv = Ok (inv', Some p2) /\
    PositionI.positions inv' = [p1].
Proof.
  intros p1 p2 inv.
  destruct (X1_pop_position_lifo inv) as [H _].
  destruct (H [p1] p2 eq_refl) as (inv' & H1 & H2 & _).
  exists inv'. split; assumption.
Defined.

(** X2.  A step that fills the active order, followed by [pop_position],
    hands back that order, filled and at its limit price, and undoes the
    booking: the closed positions are those before the step, the average
    execution price of the order was added to the total exposure and
    subtracted again, nothing was added to the realized PnL or to the trade
    count, and the slot is empty. *)
Theorem X2_fill_then_pop :
  forall (inv inv1 : PositionI.t) (bid ask bv sv : Q) (st : Z),
    PositionI.step inv bid ask bv sv st = Ok (inv1, true) ->
    exists (inv2 : PositionI.t) (o p : Order.t),
      PositionI.order inv = Some o /\
      PositionI.pop_position inv1 = Ok (inv2, Some p) /\
      Order.is_filled p = true /\
      Order.price p = Order.price o /\
      Order.id p = Order.id o /\
      PositionI.positions inv2 = PositionI.positions inv /\
      PositionI.total_exposure inv2
      = PositionI.total_exposure inv + Order.average_exectution_price p
        - Order.average_exectution_price p /\
      PositionI.realized_pnl inv2 = PositionI.realized_pnl inv /\
      PositionI.total_trade_count inv2 = PositionI.total_trade_count inv /\
      PositionI.order inv2 = None.
Proof.
  intros inv inv1 bid ask bv sv st H.
  destruct (step_inversion _ _ _ _ _ _ _ _ H)
    as [[F _] | [_ (o & avg & Ho & Hf & ->)]]; [discriminate |].
  set (p := Order.set_average_exectution_price
              (PositionI.execute o bid ask bv sv) avg).
  rewrite (pop_position_app (booked inv p avg) (PositionI.positions inv) p
             eq_refl).
  destruct (execute_shape o bid ask bv sv) as [(_ & _ & Hp & _ & Hi & _) _].
  eexists _, o, p. split; [exact Ho |]. split; [reflexivity |].
  repeat split; try assumption.
Qed.

Lemma X2_fill_then_pop_witness :
  let o := fst (Order.init 0 "BTC-USD" "long" 100 5 0) in
  let inv := PositionI.mk 1 [] (Some o) 0 0 false 0 "long" 0 1 0 in
  exists (inv1 inv2 : PositionI.t) (p : Order.t),
    PositionI.step inv 99 101 1500 0 6 = Ok (inv1, true) /\
    PositionI.pop_position inv1 = Ok (inv2, Some p) /\
    PositionI.positions inv2 = [] /\
    Order.price p = 100.
Proof.
  intros o inv.
  destruct (PositionI.step inv 99 101 1500 0 6) as [[inv1 f] |] eqn:S;
    [| vm_compute in S; discriminate S].
  assert (Hf : f = true)
    by (vm_compute in S; injection S as _ <-; reflexivity).
  subst f.
  destruct (X2_fill_then_pop inv inv1 99 101 1500 0 6%Z S)
    as (inv2 & o' & p & H1 & H2 & _ & H3 & _ & H4 & _).
  exists inv1, inv2, p. split; [reflexivity |]. split; [exact H2 |].
  split; [exact H4 |]. injection H1 as <-. exact H3.
Defined.

(** ** Unrealized PnL *)

(** X5.  [get_unrealized_pnl] is 0 on an inventory without positions.
    With positions and a non-zero average price it is the difference
    between midpoint and average price, relative to the average price and
    signed by the side.  With positions and an average price of zero (a
    booked price that rounds to 0.0000) it raises [ZeroDivisionError] for
    every non-zero midpoint. *)
Theorem X5_unrealized_pnl :
  forall (inv : PositionI.t) (midpoint : Q),
    (PositionI.positions inv = [] ->
     PositionI.get_unrealized_pnl inv midpoint = Ok 0) /\
    (PositionI.positions inv <> [] ->
     ~ PositionI.average_price inv == 0 ->
     (PositionI.side inv = "long"%string ->
      exists r, PositionI.get_unrealized_pnl inv midpoint = Ok r /\
        r == (midpoint - PositionI.average_price inv)
             / PositionI.average_price inv) /\
     (PositionI.side inv = "short"%string ->
      exists r, PositionI.get_unrealized_pnl inv midpoint = Ok r /\
        r == (PositionI.average_price inv - midpoint)
             / PositionI.average_price inv)) /\
    (PositionI.positions inv <> [] ->
     PositionI.average_price inv == 0 ->
     ~ midpoint == 0 ->
     PositionI.side inv = "long"%string \/
     PositionI.side inv = "short"%string ->
     PositionI.get_unrealized_pnl inv midpoint = Raise ZeroDivisionError).
Proof.
  intros inv m. unfold PositionI.get_unrealized_pnl, PositionI.position_count.
  split; [intros H; now rewrite H |].
  assert (Hdiv : forall d, ~ PositionI.average_price inv == 0 ->
            exists r,
              (if Qeq_bool d 0 then Ok 0
               else py_div d (PositionI.average_price inv)) = Ok r /\
              r == d / PositionI.average_price inv).
  { intros d Ha. destruct (Qeq_bool d 0) eqn:E.
    - apply Qeq_bool_iff in E. exists 0. split; [reflexivity |].
      rewrite E. field. exact Ha.
    - rewrite (py_div_ok _ _ Ha). eexists. split; reflexivity. }
  split.
  - intros Hne Ha.
    destruct (PositionI.positions inv) as [| p ps]; [congruence |].
    cbn [length Z.of_nat Z.eqb]. split; intros ->; cbn [String.eqb Ascii.eqb Bool.eqb];
      apply Hdiv; exact Ha.
  - intros Hne Ha Hm Hs.
    destruct (PositionI.positions inv) as [| p ps]; [congruence |].
    cbn [length Z.of_nat Z.eqb].
    assert (Hz : Qeq_bool (PositionI.average_price inv) 0 = true)
      by (now apply Qeq_bool_iff).
    destruct Hs as [-> | ->]; cbn [String.eqb Ascii.eqb Bool.eqb].
    + assert (E : Qeq_bool (m - PositionI.average_price inv) 0 = false)
        by (apply Qeq_bool_false; rewrite Ha; intros H; apply Hm;
            rewrite <- H; ring).
      rewrite E. unfold py_div. now rewrite Hz.
    + assert (E : Qeq_bool (PositionI.average_price inv - m) 0 = false).
      { apply Qeq_bool_false. rewrite Ha. intros H. apply Hm.
        setoid_replace m with (- (0 - m)) by ring. rewrite H. ring. }
      rewrite E. unfold py_div. now rewrite Hz.
Qed.

Lemma X5_unrealized_pnl_witness :
  let p := Order.mk "BTC-USD" "long" 100 1 1000 1 0 [(100, 1000)] 100 in
  let inv := PositionI.mk 2 [p] None 0 0 false 100 "long" 100 (1 # 2) 0 in
  let tiny := Order.mk "BTC-USD" "long" (1 # 32768) 1 1000 1 0
                [(1 # 32768, 1000)] 0 in
  let inv0 := PositionI.mk 2 [tiny] None 0 0 false 0 "long" 0 (1 # 2) 0 in
  (exists r, PositionI.get_unrealized_pnl inv 101 = Ok r /\
             r == (101 - 100) / 100) /\
  PositionI.get_unrealized_pnl inv0 101 = Raise ZeroDivisionError.
Proof.
  intros p inv tiny inv0. split.
  - destruct (X5_unrealized_pnl inv 101) as (_ & H & _).
    apply H; [discriminate | | reflexivity].
    intros E. apply Qeq_bool_iff in E. discriminate E.
  - destruct (X5_unrealized_pnl inv0 101) as (_ & _ & H).
    apply H; [discriminate | reflexivity | | left; reflexivity].
    intros E. apply Qeq_bool_iff in E. discriminate E.
Defined.

(** ** The average price *)

Lemma inventory_run_preserves (P : PositionI.t -> Prop) (fee : Q) :
  (forall inv inv' c, inventory_do fee inv c = Ok inv' -> P inv -> P inv') ->
  forall cs inv inv',
    inventory_run fee inv cs = Ok inv' -> P inv -> P inv'.
Proof.
  intros Hdo. induction cs as [| c cs IH]; intros inv inv'; simpl.
  - now intros [= <-].
  - destruct (inventory_do fee inv c) as [inv1 |] eqn:D; [| discriminate].
    simpl. intros H Hp. exact (IH _ _ H (Hdo _ _ _ D Hp)).
Qed.

Lemma step_average (inv inv' : PositionI.t) (bid ask bv sv : Q) (st : Z)
    (filled : bool) :
  PositionI.step inv bid ask bv sv st = Ok (inv', filled) ->
  average_inv inv -> average_inv inv'.
Proof.
  intros H Ha.
  destruct (step_inversion _ _ _ _ _ _ _ _ H)
    as [[_ [[_ ->] | (o & _ & _ & ->)]] | [_ (o & avg & _ & _ & ->)]].
  - exact Ha.
  - exact Ha.
  - unfold average_inv, booked.
    cbn [PositionI.average_price PositionI.total_exposure
         PositionI.positions].
    rewrite length_app, Nat.add_1_r. reflexivity.
Qed.

Lemma pop_position_average (inv inv' : PositionI.t) (p : option Order.t) :
  PositionI.pop_position inv = Ok (inv', p) ->
  average_inv inv -> average_inv inv'.
Proof.
  intros H Ha.
  destruct (list_last_case (PositionI.positions inv))
    as [E | (ps & x & E)].
  - rewrite (pop_position_nil inv E) in H. now injection H as <- _.
  - rewrite (pop_position_app inv ps x E) in H. injection H as <- _.
    reflexivity.
Qed.

Lemma remove_position_average (inv inv' : PositionI.t) (m pnl : Q) :
  PositionI.remove_position inv m = Ok (inv', pnl) ->
  average_inv inv -> average_inv inv'.
Proof.
  intros H Ha.
  destruct (PositionI.positions inv) as [| p rest] eqn:E.
  - rewrite (remove_position_nil inv m E) in H. now injection H as <- _.
  - rewrite (remove_position_cons inv m p rest E) in H.
    destruct (if String.eqb _ _ then _ else _) as [pnl0 |]; [| discriminate].
    cbn [bind] in H. injection H as <- _. reflexivity.
Qed.

Lemma flatten_loop_average (fee m : Q) (fuel : nat) :
  forall inv inv' : PositionI.t,
    PositionI.flatten_loop fee fuel inv m = Ok inv' ->
    average_inv inv -> average_inv inv'.
Proof.
  induction fuel as [| fuel IH]; intros inv inv'; simpl.
  - destruct (0 <? _)%Z; now intros [= <-].
  - destruct (0 <? _)%Z; [| now intros [= <-]].
    destruct (PositionI.remove_position inv m) as [[inv1 pnl] |] eqn:R;
      [| discriminate].
    simpl. intros H Hinv. apply (IH _ _ H).
    exact (remove_position_average _ _ _ _ R Hinv).
Qed.

Lemma inventory_do_average (fee : Q) (inv inv' : PositionI.t)
    (c : inventory_call) :
  inventory_do fee inv c = Ok inv' -> average_inv inv -> average_inv inv'.
Proof.
  destruct c; simpl.
  - intros [= <-]. unfold PositionI.add_order.
    destruct (negb _); [destruct (PositionI.order inv) |]; auto.
  - intros [= <-]. unfold PositionI.cancel_order.
    destruct (PositionI.order inv); auto.
  - destruct (PositionI.step _ _ _ _ _ _) as [[inv1 f] |] eqn:S;
      [| discriminate].
    simpl. intros [= <-]. exact (step_average _ _ _ _ _ _ _ _ S).
  - destruct (PositionI.pop_position _) as [[inv1 p] |] eqn:S;
      [| discriminate].
    simpl. intros [= <-]. exact (pop_position_average _ _ _ S).
  - destruct (PositionI.remove_position _ _) as [[inv1 p] |] eqn:S;
      [| discriminate].
    simpl. intros [= <-]. exact (remove_position_average _ _ _ _ S).
  - unfold PositionI.flatten_inventory.
    destruct (_ <? 1)%Z; [simpl; now intros [= <-] |].
    destruct (PositionI.flatten_loop _ _ _ _) as [inv1 |] eqn:L;
      [| discriminate].
    simpl. intros [= <-]. exact (flatten_loop_average _ _ _ _ _ L).
  - intros [= <-] _. reflexivity.
Qed.

(** X6.  In every state that an inventory reaches from its initial state,
    [average_price] is consistent with [total_exposure] and the positions:
    it is 0 when there are no positions and the quotient
    [total_exposure / position_count] when there are. *)
Theorem X6_exposure_bookkeeping :
  forall (BROKER_FEE : Q) (side : string) (max_position : Z)
         (calls : list inventory_call) (inv0 inv : PositionI.t),
    PositionI.init side max_position = Ok inv0 ->
    inventory_run BROKER_FEE inv0 calls = Ok inv ->
    (PositionI.positions inv = [] -> PositionI.average_price inv = 0) /\
    (PositionI.positions inv <> [] ->
     PositionI.average_price inv
     = PositionI.total_exposure inv
       / inject_Z (PositionI.position_count inv)).
Proof.
  intros fee side max_position calls inv0 inv Hinit Hrun.
  assert (H0 : average_inv inv0).
  { unfold PositionI.init in Hinit.
    destruct (py_div 1 _); [| discriminate]. injection Hinit as <-.
    reflexivity. }
  pose proof (inventory_run_preserves average_inv fee
                (inventory_do_average fee) calls inv0 inv Hrun H0) as Ha.
  unfold average_inv, PositionI.position_count in *.
  destruct (PositionI.positions inv) as [| p rest].
  - split; [intros _; exact Ha | congruence].
  - split; [discriminate | intros _; exact Ha].
Qed.

Lemma X6_exposure_bookkeeping_witness :
  let inv0 := PositionI.mk 2 [] None 0 0 false 0 "long" 0 (1 / inject_Z 2) 0 in
  let calls :=
    [AddOrder (fst (Order.init 0 "BTC-USD" "long" 100 0 0));
     Step 99 101 1000 0 1;
     AddOrder (fst (Order.init 1 "BTC-USD" "long" 102 1 0));
     Step 99 101 1000 0 2] in
  exists inv : PositionI.t,
    inventory_run (1 # 1000) inv0 calls = Ok inv /\
    PositionI.position_count inv = 2%Z /\
    PositionI.average_price inv
    = PositionI.total_exposure inv / inject_Z 2.
Proof.
  intros inv0 calls.
  destruct (inventory_run (1 # 1000) inv0 calls) as [inv |] eqn:Hrun;
    [| vm_compute in Hrun; discriminate Hrun].
  exists inv. split; [reflexivity |].
  assert (Hl : PositionI.position_count inv = 2%Z)
    by (vm_compute in Hrun; injection Hrun as <-; reflexivity).
  split; [exact Hl |].
  destruct (X6_exposure_bookkeeping (1 # 1000) "long" 2 calls inv0 inv
              eq_refl Hrun) as [_ H].
  rewrite <- Hl. apply H.
  intros E. unfold PositionI.position_count in Hl. rewrite E in Hl.
  discriminate Hl.
Defined.

(** X7.  PnL is booked only when a position is closed: over any sequence
    of [add_order], [cancel_order], [step] and [pop_position] calls the
    realized PnL and the trade count stay as they were. *)
Theorem X7_pnl_only_on_close :
  forall (BROKER_FEE : Q) (calls : list inventory_call)
         (inv inv' : PositionI.t),
    Forall (fun c => closes_positions c = false) calls ->
    inventory_run BROKER_FEE inv calls = Ok inv' ->
    PositionI.realized_pnl inv' = PositionI.realized_pnl inv /\
    PositionI.total_trade_count inv' = PositionI.total_trade_count inv.
Proof.
  intros fee calls. induction calls as [| c cs IH]; intros inv inv' Hc; simpl.
  - now intros [= <-].
  - inversion Hc as [| ? ? Hc0 Hcs]; subst.
    destruct (inventory_do fee inv c) as [inv1 |] eqn:D; [| discriminate].
    simpl. intros H. destruct (IH _ _ Hcs H) as [-> ->]. clear IH H.
    destruct c; simpl in D, Hc0; try discriminate.
    + injection D as <-. unfold PositionI.add_order.
      destruct (negb _); [destruct (PositionI.order inv) |]; now split.
    + injection D as <-. unfold PositionI.cancel_order.
      destruct (PositionI.order inv); now split.
    + destruct (PositionI.step _ _ _ _ _ _) as [[inv2 f] |] eqn:S;
        [| discriminate].
      simpl in D. injection D as <-.
      destruct (step_inversion _ _ _ _ _ _ _ _ S)
        as [[_ [[_ ->] | (o & _ & _ & ->)]] | [_ (o & avg & _ & _ & ->)]];
        now split.
    + destruct (PositionI.pop_position _) as [[inv2 p] |] eqn:S;
        [| discriminate].
      simpl in D. injection D as <-.
      destruct (list_last_case (PositionI.positions inv))
        as [E | (ps & x & E)].
      * rewrite (pop_position_nil inv E) in S. injection S as <- _.
        now split.
      * rewrite (pop_position_app inv ps x E) in S. injection S as <- _.
        now split.
Qed.

Lemma X7_pnl_only_on_close_witness :
  let inv := PositionI.mk 1 [] None (1 # 4) 0 false 0 "long" 0 1 3 in
  let calls :=
    [AddOrder (fst (Order.init 0 "BTC-USD" "long" 100 0 0));
     Step 99 101 1000 0 1; PopPosition; CancelOrder] in
  exists inv' : PositionI.t,
    inventory_run (1 # 1000) inv calls = Ok inv' /\
    PositionI.realized_pnl inv' = (1 # 4) /\
    PositionI.total_trade_count inv' = 3%Z.
Proof.
  intros inv calls.
  destruct (inventory_run (1 # 1000) inv calls) as [inv' |] eqn:Hrun;
    [| vm_compute in Hrun; discriminate Hrun].
  exists inv'. split; [reflexivity |].
  apply (X7_pnl_only_on_close (1 # 1000) calls inv inv');
    [repeat constructor | exact Hrun].
Defined.

(** ** The two halves of [Broker.step] *)

Lemma netting_inversion (filled : bool) (own other own' other' : PositionI.t)
    (d : Q) :
  netting filled own other = Ok (own', other', d) ->
  (own' = own /\ other' = other /\ d = 0 /\
   (filled = false \/ PositionI.positions other = [])) \/
  (filled = true /\
   exists ps p q rest,
     PositionI.positions own = ps ++ [p] /\
     PositionI.positions other = q :: rest /\
     PositionI.pop_position own = Ok (own', Some p) /\
     PositionI.remove_position other (Order.price p) = Ok (other', d)).
Proof.
  unfold netting. destruct filled; [| intros [= <- <- <-]; left; auto].
  unfold PositionI.position_count.
  destruct (PositionI.positions other) as [| q rest] eqn:Eo.
  - simpl. intros [= <- <- <-]. left. auto.
  - change (0 <? Z.of_nat (length (q :: rest)))%Z with true. cbv iota.
    destruct (list_last_case (PositionI.positions own))
      as [E | (ps & p & E)].
    + rewrite (pop_position_nil own E). simpl. discriminate.
    + rewrite (pop_position_app own ps p E). cbn [bind].
      destruct (PositionI.remove_position other (Order.price p))
        as [[other1 d1] |] eqn:R; [| discriminate].
      cbn [bind]. intros [= <- <- <-]. right. split; [reflexivity |].
      exists ps, p, q, rest. auto.
Qed.

Lemma broker_step_short_inversion (fee : Q) (b b' : Broker.t)
    (bid ask bv sv : Q) (st : Z) (pnl r : Q) :
  (' (short, filled) <-
     PositionI.step (Broker.short_inventory b) bid ask bv sv st ;;
   let self := Broker.mk (Broker.long_inventory b) short in
   ' (self, pnl) <-
     (if filled then
        if (0 <? Broker.long_inventory_count self)%Z then
          ' (short, new_position) <-
            PositionI.pop_position (Broker.short_inventory self) ;;
          let self := Broker.mk (Broker.long_inventory self) short in
          match new_position with
          | None => Raise AttributeError
          | Some new_position =>
              ' (long, d) <-
                PositionI.remove_position (Broker.long_inventory self)
                  (Order.price new_position) ;;
              Ok (Broker.mk long (Broker.short_inventory self), pnl + d)
          end
        else Ok (self, pnl)
      else Ok (self, pnl)) ;;
   r <- py_div pnl (Broker.reward_scale fee) ;;
   Ok (self, r)) = Ok (b', r) ->
  exists short3 f2 short4 long4 d2,
    PositionI.step (Broker.short_inventory b) bid ask bv sv st
    = Ok (short3, f2) /\
    netting f2 short3 (Broker.long_inventory b) = Ok (short4, long4, d2) /\
    b' = Broker.mk long4 short4 /\
    ~ Broker.reward_scale fee == 0 /\
    r == (pnl + d2) / Broker.reward_scale fee.
Proof.
  destruct b as [long short].
  cbn [Broker.long_inventory Broker.short_inventory].
  destruct (PositionI.step short bid ask bv sv st) as [[short3 f2] |] eqn:S;
    [| discriminate].
  cbn [bind Broker.long_inventory Broker.short_inventory].
  unfold Broker.long_inventory_count, netting.
  cbn [Broker.long_inventory Broker.short_inventory].
  assert (E : forall x l s,
             (r0 <- py_div x (Broker.reward_scale fee) ;; Ok (Broker.mk l s, r0))
             = Ok (b', r) ->
             b' = Broker.mk l s /\ ~ Broker.reward_scale fee == 0 /\
             r == x / Broker.reward_scale fee).
  { intros x l s. unfold py_div.
    destruct (Qeq_bool _ 0) eqn:Z; [discriminate |]. cbn [bind].
    intros [= <- <-]. apply Qeq_bool_false in Z.
    repeat split; auto; reflexivity. }
  intros H. exists short3, f2.
  destruct f2.
  - destruct (0 <? _)%Z.
    + destruct (PositionI.pop_position short3) as [[short4 np] |] eqn:P;
        [| discriminate].
      cbn [bind Broker.long_inventory Broker.short_inventory] in *.
      destruct np as [np |]; [| discriminate].
      destruct (PositionI.remove_position long _) as [[long4 d] |] eqn:R;
        [| discriminate].
      cbn [bind Broker.long_inventory Broker.short_inventory] in *.
      destruct (E _ _ _ H) as (E1 & E2 & E3).
      exists short4, long4, d. auto.
    + destruct (E _ _ _ H) as (E1 & E2 & E3).
      exists short3, long, 0. repeat split; auto. rewrite E3.
      field. exact E2.
  - destruct (E _ _ _ H) as (E1 & E2 & E3).
    exists short3, long, 0. repeat split; auto. rewrite E3.
    field. exact E2.
Qed.

Lemma broker_step_inversion (fee : Q) (b b' : Broker.t)
    (bid ask bv sv : Q) (st : Z) (r : Q) :
  Broker.step fee b bid ask bv sv st = Ok (b', r) ->
  exists long1 f1 long2 short2 d1 short3 f2 short4 long4 d2,
    PositionI.step (Broker.long_inventory b) bid ask bv sv st
    = Ok (long1, f1) /\
    netting f1 long1 (Broker.short_inventory b) = Ok (long2, short2, d1) /\
    PositionI.step short2 bid ask bv sv st = Ok (short3, f2) /\
    netting f2 short3 long2 = Ok (short4, long4, d2) /\
    b' = Broker.mk long4 short4 /\
    ~ Broker.reward_scale fee == 0 /\
    r == (d1 + d2) / Broker.reward_scale fee.
Proof.
  destruct b as [long short]. unfold Broker.step.
  cbn [Broker.long_inventory Broker.short_inventory].
  destruct (PositionI.step long bid ask bv sv st) as [[long1 f1] |] eqn:S;
    [| discriminate].
  cbn [bind Broker.long_inventory Broker.short_inventory].
  unfold Broker.short_inventory_count.
  cbn [Broker.long_inventory Broker.short_inventory].
  intros H. exists long1, f1.
  assert (N : exists long2 short2 d1 pnl,
             netting f1 long1 short = Ok (long2, short2, d1) /\
             pnl == d1 /\
             (' (short0, filled) <-
                PositionI.step (Broker.short_inventory
                                  (Broker.mk long2 short2)) bid ask bv sv st ;;
              let self :=
                Broker.mk (Broker.long_inventory (Broker.mk long2 short2))
                  short0 in
              ' (self, pnl) <-
                (if filled then
                   if (0 <? Broker.long_inventory_count self)%Z then
                     ' (short1, new_position) <-
                       PositionI.pop_position (Broker.short_inventory self) ;;
                     let self :=
                       Broker.mk (Broker.long_inventory self) short1 in
                     match new_position with
                     | None => Raise AttributeError
                     | Some new_position =>
                         ' (long0, d) <-
                           PositionI.remove_position
                             (Broker.long_inventory self)
                             (Order.price new_position) ;;
                         Ok (Broker.mk long0 (Broker.short_inventory self),
                             pnl + d)
                     end
                   else Ok (self, pnl)
                 else Ok (self, pnl)) ;;
              r0 <- py_div pnl (Broker.reward_scale fee) ;;
              Ok (self, r0)) = Ok (b', r)).
  { unfold netting. destruct f1.
    - destruct (0 <? PositionI.position_count short)%Z.
      + destruct (PositionI.pop_position long1) as [[long2 np] |] eqn:P;
          [| discriminate].
        cbn [bind Broker.long_inventory Broker.short_inventory] in *.
        destruct np as [np |]; [| discriminate].
        destruct (PositionI.remove_position short _) as [[short2 d] |] eqn:R;
          [| discriminate].
        cbn [bind Broker.long_inventory Broker.short_inventory] in *.
        exists long2, short2, d, (0 + d).
        split; [reflexivity |]. split; [ring | exact H].
      + exists long1, short, 0, 0.
        split; [reflexivity |]. split; [reflexivity | exact H].
    - exists long1, short, 0, 0.
      split; [reflexivity |]. split; [reflexivity | exact H]. }
  destruct N as (long2 & short2 & d1 & pnl & N1 & N2 & N3).
  destruct (broker_step_short_inversion fee (Broker.mk long2 short2) b'
              bid ask bv sv st pnl r N3)
    as (short3 & f2 & short4 & long4 & d2 & H1 & H2 & H3 & H4 & H5).
  exists long2, short2, d1, short3, f2, short4, long4, d2.
  cbn [Broker.long_inventory Broker.short_inventory] in H1, H2.
  repeat split; auto. rewrite H5, N2. reflexivity.
Qed.

(** Whatever the four inventory operations used by [Broker.step] preserve
    on each side is preserved by [Broker.step]. *)
Lemma broker_step_preserves (PL PS : PositionI.t -> Prop) :
  (forall inv inv' bid ask bv sv st f,
      PositionI.step inv bid ask bv sv st = Ok (inv', f) ->
      PL inv -> PL inv') ->
  (forall inv inv' p,
      PositionI.pop_position inv = Ok (inv', p) -> PL inv -> PL inv') ->
  (forall inv inv' m d,
      PositionI.remove_position inv m = Ok (inv', d) -> PL inv -> PL inv') ->
  (forall inv inv' bid ask bv sv st f,
      PositionI.step inv bid ask bv sv st = Ok (inv', f) ->
      PS inv -> PS inv') ->
  (forall inv inv' p,
      PositionI.pop_position inv = Ok (inv', p) -> PS inv -> PS inv') ->
  (forall inv inv' m d,
      PositionI.remove_position inv m = Ok (inv', d) -> PS inv -> PS inv') ->
  forall fee b b' bid ask bv sv st r,
    Broker.step fee b bid ask bv sv st = Ok (b', r) ->
    PL (Broker.long_inventory b) -> PS (Broker.short_inventory b) ->
    PL (Broker.long_inventory b') /\ PS (Broker.short_inventory b').
Proof.
  intros Ls Lp Lr Ss Sp Sr fee b b' bid ask bv sv st r H HL HS.
  destruct (broker_step_inversion _ _ _ _ _ _ _ _ _ H)
    as (long1 & f1 & long2 & short2 & d1 & short3 & f2 & short4 & long4 & d2
        & H1 & H2 & H3 & H4 & -> & _).
  simpl.
  assert (L1 : PL long1) by exact (Ls _ _ _ _ _ _ _ _ H1 HL).
  assert (N1 : PL long2 /\ PS short2).
  { destruct (netting_inversion _ _ _ _ _ _ H2)
      as [(-> & -> & _) | (_ & ps & p & q & rest & _ & _ & P & R)].
    - auto.
    - split; [exact (Lp _ _ _ P L1) | exact (Sr _ _ _ _ R HS)]. }
  destruct N1 as [L2 S2].
  assert (S3 : PS short3) by exact (Ss _ _ _ _ _ _ _ _ H3 S2).
  destruct (netting_inversion _ _ _ _ _ _ H4)
    as [(-> & -> & _) | (_ & ps & p & q & rest & _ & _ & P & R)].
  - auto.
  - split; [exact (Lr _ _ _ _ R L2) | exact (Sp _ _ _ P S3)].
Qed.

(** ** Where the closed positions go *)

Lemma step_positions (inv inv' : PositionI.t) (bid ask bv sv : Q) (st : Z)
    (f : bool) :
  PositionI.step inv bid ask bv sv st = Ok (inv', f) ->
  PositionI.realized_pnl inv' = PositionI.realized_pnl inv /\
  PositionI.total_trade_count inv' = PositionI.total_trade_count inv /\
  ((f = false /\ PositionI.positions inv' = PositionI.positions inv) \/
   (f = true /\
    exists p, PositionI.positions inv' = PositionI.positions inv ++ [p])).
Proof.
  intros H.
  destruct (step_inversion _ _ _ _ _ _ _ _ H)
    as [[-> [[_ ->] | (o & _ & _ & ->)]] | [-> (o & avg & _ & _ & ->)]];
    repeat split; auto.
  right. split; [reflexivity |]. eexists. reflexivity.
Qed.

Lemma remove_position_effect (inv inv' : PositionI.t) (m d : Q) :
  PositionI.remove_position inv m = Ok (inv', d) ->
  PositionI.positions inv' = tl (PositionI.positions inv) /\
  PositionI.realized_pnl inv' == PositionI.realized_pnl inv + d /\
  PositionI.total_trade_count inv'
  = (PositionI.total_trade_count inv
     + (PositionI.position_count inv - PositionI.position_count inv'))%Z.
Proof.
  intros H.
  destruct (PositionI.positions inv) as [| p rest] eqn:E.
  - rewrite (remove_position_nil inv m E) in H. injection H as <- <-.
    rewrite E. simpl. split; [reflexivity |]. split; [ring | lia].
  - rewrite (remove_position_cons inv m p rest E) in H.
    destruct (if String.eqb _ _ then _ else _) as [pnl0 |]; [| discriminate].
    cbn [bind] in H. injection H as <- <-.
    unfold PositionI.position_count. rewrite E.
    cbn [PositionI.positions PositionI.realized_pnl
         PositionI.total_trade_count tl length].
    split; [reflexivity |]. split; [reflexivity | lia].
Qed.

Lemma netting_effect (f : bool) (own other own' other' : PositionI.t)
    (d : Q) :
  netting f own other = Ok (own', other', d) ->
  PositionI.realized_pnl own' = PositionI.realized_pnl own /\
  PositionI.realized_pnl other' == PositionI.realized_pnl other + d /\
  ((PositionI.positions own' = PositionI.positions own /\
    PositionI.positions other' = PositionI.positions other /\
    (f = false \/ PositionI.positions other = [])) \/
   (f = true /\
    exists p q,
      PositionI.positions own = PositionI.positions own' ++ [p] /\
      PositionI.positions other = q :: PositionI.positions other')).
Proof.
  intros H.
  destruct (netting_inversion _ _ _ _ _ _ H)
    as [(-> & -> & -> & C) | (-> & ps & p & q & rest & E1 & E2 & P & R)].
  - split; [reflexivity |]. split; [ring |]. left. auto.
  - rewrite (pop_position_app own ps p E1) in P. injection P as <-.
    destruct (remove_position_effect _ _ _ _ R) as (R1 & R2 & _).
    rewrite E2 in R1. simpl in R1.
    split; [reflexivity |]. split; [exact R2 |]. right.
    split; [reflexivity |]. exists p, q. simpl. rewrite R1. auto.
Qed.






(** ** Invariants of the broker over a run of the process *)

Lemma process_run_preserves (P : Broker.t -> Prop) (fee : Q) :
  (forall p p' c, Process.exec fee p c = Ok p' ->
                  P (Process.broker p) -> P (Process.broker p')) ->
  forall cs p p',
    Process.run fee p cs = Ok p' ->
    P (Process.broker p) -> P (Process.broker p').
Proof.
  intros Hex. induction cs as [| c cs IH]; intros p p'; simpl.
  - now intros [= <-].
  - destruct (Process.exec fee p c) as [p1 |] eqn:E; [| discriminate].
    simpl. intros H Hp. exact (IH _ _ H (Hex _ _ _ E Hp)).
Qed.

Lemma broker_flatten_preserves (PL PS : PositionI.t -> Prop) (fee : Q) :
  (forall inv inv' m r,
      PositionI.flatten_inventory fee inv m = Ok (inv', r) ->
      PL inv -> PL inv') ->
  (forall inv inv' m r,
      PositionI.flatten_inventory fee inv m = Ok (inv', r) ->
      PS inv -> PS inv') ->
  forall b b' bid ask r,
    Broker.flatten_inventory fee b bid ask = Ok (b', r) ->
    PL (Broker.long_inventory b) -> PS (Broker.short_inventory b) ->
    PL (Broker.long_inventory b') /\ PS (Broker.short_inventory b').
Proof.
  intros HL HS b b' bid ask r. unfold Broker.flatten_inventory.
  destruct (PositionI.flatten_inventory fee (Broker.long_inventory b) bid)
    as [[long t] |] eqn:L; [| discriminate].
  cbn [bind Broker.short_inventory Broker.long_inventory].
  destruct (PositionI.flatten_inventory fee (Broker.short_inventory b) ask)
    as [[short d] |] eqn:S; [| discriminate].
  cbn [bind Broker.short_inventory Broker.long_inventory].
  intros H PL0 PS0.
  assert (E : b' = Broker.mk long short).
  { destruct (negb _).
    - destruct (py_div _ _); [| discriminate]. cbn [bind] in H.
      now injection H as <- _.
    - now injection H as <- _. }
  subst b'. simpl. split; [exact (HL _ _ _ _ L PL0) | exact (HS _ _ _ _ S PS0)].
Qed.

Lemma broker_add_preserves (PL PS : PositionI.t -> Prop) :
  (forall inv o, Order.side o = "long"%string ->
                 PL inv -> PL (fst (PositionI.add_order inv o))) ->
  (forall inv o, Order.side o = "short"%string ->
                 PS inv -> PS (fst (PositionI.add_order inv o))) ->
  forall b o,
    PL (Broker.long_inventory b) -> PS (Broker.short_inventory b) ->
    PL (Broker.long_inventory (fst (Broker.add b o))) /\
    PS (Broker.short_inventory (fst (Broker.add b o))).
Proof.
  intros HL HS b o PL0 PS0. unfold Broker.add.
  destruct (String.eqb _ "long") eqn:E1.
  - apply String.eqb_eq in E1.
    pose proof (HL (Broker.long_inventory b) o E1 PL0) as H.
    destruct (PositionI.add_order _ _) as [inv ok]. simpl in *. auto.
  - destruct (String.eqb _ "short") eqn:E2; [| auto].
    apply String.eqb_eq in E2.
    pose proof (HS (Broker.short_inventory b) o E2 PS0) as H.
    destruct (PositionI.add_order _ _) as [inv ok]. simpl in *. auto.
Qed.

(** X9.  The capacity invariant holds for both sides of a broker throughout
    a run of the process, nettings included: on each side
    [position_count] is at most [max_position] and the [full_inventory]
    flag equals [position_count >= max_position]. *)
Theorem X9_broker_capacity :
  forall (BROKER_FEE : Q) (max_position _id : Z) (b0 : Broker.t)
         (cs : list Process.command) (p : Process.t),
    (1 <= max_position)%Z ->
    Broker.init max_position = Ok b0 ->
    Process.run BROKER_FEE (Process.mk _id b0) cs = Ok p ->
    let long := Broker.long_inventory (Process.broker p) in
    let short := Broker.short_inventory (Process.broker p) in
    (PositionI.position_count long <= max_position)%Z /\
    (PositionI.position_count short <= max_position)%Z /\
    PositionI.full_inventory long
    = (PositionI.position_count long >=? max_position)%Z /\
    PositionI.full_inventory short
    = (PositionI.position_count short >=? max_position)%Z.
Proof.
  intros fee max_position _id b0 cs p Hmax Hinit Hrun long short.
  set (P := fun b => inventory_inv (Broker.long_inventory b) /\
                     inventory_inv (Broker.short_inventory b)).
  assert (Hex : forall p p' c, Process.exec fee p c = Ok p' ->
                  P (Process.broker p) -> P (Process.broker p')).
  { intros q q' c. destruct c; simpl.
    - intros [= <-] [HL HS]. simpl.
      apply (broker_add_preserves inventory_inv inventory_inv); auto;
        intros inv o _; apply add_order_inv.
    - destruct (Broker.step _ _ _ _ _ _ _) as [[b r] |] eqn:S;
        [| discriminate].
      simpl. intros [= <-] [HL HS]. simpl.
      exact (broker_step_preserves inventory_inv inventory_inv
               step_inv pop_position_inv remove_position_inv
               step_inv pop_position_inv remove_position_inv
               _ _ _ _ _ _ _ _ _ S HL HS).
    - destruct (Broker.flatten_inventory _ _ _ _) as [[b r] |] eqn:S;
        [| discriminate].
      simpl. intros [= <-] [HL HS]. simpl.
      apply (broker_flatten_preserves inventory_inv inventory_inv fee
               (flatten_inventory_inv fee) (flatten_inventory_inv fee)
               _ _ _ _ _ S HL HS).
    - intros [= <-] [HL HS]. simpl. split; apply reset_inv; assumption. }
  assert (H0 : P b0).
  { unfold Broker.init in Hinit.
    destruct (PositionI.init "long" max_position) as [l0 |] eqn:L;
      [| discriminate].
    destruct (PositionI.init "short" max_position) as [s0 |] eqn:S;
      [| discriminate].
    simpl in Hinit. injection Hinit as <-. split; simpl;
      eapply init_inv; eassumption. }
  destruct (process_run_preserves P fee Hex cs _ _ Hrun H0)
    as [(_ & L1 & L2 & _) (_ & S1 & S2 & _)].
  destruct (run_config_counter fee cs _ _ Hrun) as [[(CL & _) (CS & _)] _].
  simpl in CL, CS.
  assert (M : PositionI.max_position_count (Broker.long_inventory b0)
              = max_position /\
              PositionI.max_position_count (Broker.short_inventory b0)
              = max_position).
  { unfold Broker.init, PositionI.init in Hinit.
    destruct (py_div 1 _); [| discriminate]. simpl in Hinit.
    injection Hinit as <-. split; reflexivity. }
  destruct M as [ML MS]. fold long in L1, L2, CL. fold short in S1, S2, CS.
  rewrite CL, ML in L1, L2. rewrite CS, MS in S1, S2. auto.
Qed.

Lemma X9_broker_capacity_witness :
  let b0 := Broker.mk
              (PositionI.mk 1 [] None 0 0 false 0 "long" 0 (1 / inject_Z 1) 0)
              (PositionI.mk 1 [] None 0 0 false 0 "short" 0 (1 / inject_Z 1) 0) in
  let cs := [Process.CreateOrder "BTC-USD" "short" 100 0 0;
             Process.BrokerStep 99 100 0 1000 1;
             Process.CreateOrder "BTC-USD" "short" 101 1 0;
             Process.CreateOrder "BTC-USD" "long" 99 1 0] in
  exists p : Process.t,
    Process.run (1 # 1000) (Process.mk 0 b0) cs = Ok p /\
    (PositionI.position_count
       (Broker.short_inventory (Process.broker p)) <= 1)%Z /\
    PositionI.full_inventory (Broker.short_inventory (Process.broker p))
    = (PositionI.position_count
         (Broker.short_inventory (Process.broker p)) >=? 1)%Z.
Proof.
  intros b0 cs.
  destruct (Process.run (1 # 1000) (Process.mk 0 b0) cs) as [p |] eqn:Hrun;
    [| vm_compute in Hrun; discriminate Hrun].
  exists p. split; [reflexivity |].
  destruct (X9_broker_capacity (1 # 1000) 1 0 b0 cs p) as (_ & H1 & _ & H2);
    [lia | reflexivity | exact Hrun |].
  split; assumption.
Defined.

(** ** Orders stay on their side *)

Lemma flatten_inventory_preserves (P : PositionI.t -> Prop) (fee : Q) :
  (forall inv inv' m d,
      PositionI.remove_position inv m = Ok (inv', d) -> P inv -> P inv') ->
  (forall inv x, P inv -> P (PositionI.set_realized_pnl inv x)) ->
  forall inv inv' m r,
    PositionI.flatten_inventory fee inv m = Ok (inv', r) -> P inv -> P inv'.
Proof.
  intros Hr Hs inv inv' m r.
  assert (Hloop : forall fuel a a1,
             PositionI.flatten_loop fee fuel a m = Ok a1 -> P a -> P a1).
  { induction fuel as [| fuel IH]; intros a a1; simpl.
    - destruct (0 <? _)%Z; now intros [= <-].
    - destruct (0 <? _)%Z; [| now intros [= <-]].
      destruct (PositionI.remove_position a m) as [[a2 pnl] |] eqn:R;
        [| discriminate].
      simpl. intros H Hp. apply (IH _ _ H). apply Hs.
      exact (Hr _ _ _ _ R Hp). }
  unfold PositionI.flatten_inventory.
  destruct (_ <? 1)%Z; [now intros [= <- _] |].
  destruct (PositionI.flatten_loop _ _ _ _) as [inv1 |] eqn:L;
    [| discriminate].
  simpl. intros [= <- _]. exact (Hloop _ _ _ L).
Qed.

Lemma add_order_side (s : string) (inv : PositionI.t) (o : Order.t) :
  Order.side o = s -> all_side s inv ->
  all_side s (fst (PositionI.add_order inv o)).
Proof.
  intros Ho [H1 H2]. unfold PositionI.add_order.
  destruct (negb _); [| now split].
  destruct (PositionI.order inv) as [o0 |] eqn:E; simpl; split; simpl;
    try exact H2.
  - intros o' [= <-]. simpl. now apply H1.
  - now intros o' [= <-].
Qed.

Lemma step_side (s : string) (inv inv' : PositionI.t) (bid ask bv sv : Q)
    (st : Z) (f : bool) :
  PositionI.step inv bid ask bv sv st = Ok (inv', f) ->
  all_side s inv -> all_side s inv'.
Proof.
  intros H [H1 H2].
  destruct (step_inversion _ _ _ _ _ _ _ _ H)
    as [[_ [[_ ->] | (o & Ho & _ & ->)]] | [_ (o & avg & Ho & _ & ->)]].
  - now split.
  - destruct (execute_shape o bid ask bv sv) as [(_ & Hs & _) _].
    split; simpl; [| exact H2].
    intros o' [= <-]. rewrite Hs. now apply H1.
  - destruct (execute_shape o bid ask bv sv) as [(_ & Hs & _) _].
    split; simpl; [discriminate |].
    apply Forall_app. split; [exact H2 |].
    repeat constructor. simpl. rewrite Hs. now apply H1.
Qed.

Lemma pop_position_side (s : string) (inv inv' : PositionI.t)
    (p : option Order.t) :
  PositionI.pop_position inv = Ok (inv', p) ->
  all_side s inv -> all_side s inv'.
Proof.
  intros H [H1 H2].
  destruct (list_last_case (PositionI.positions inv))
    as [E | (ps & x & E)].
  - rewrite (pop_position_nil inv E) in H. injection H as <- _. now split.
  - rewrite (pop_position_app inv ps x E) in H. injection H as <- _.
    rewrite E in H2. apply Forall_app in H2. destruct H2 as [H2 _].
    now split.
Qed.

Lemma remove_position_side (s : string) (inv inv' : PositionI.t) (m d : Q) :
  PositionI.remove_position inv m = Ok (inv', d) ->
  all_side s inv -> all_side s inv'.
Proof.
  intros H [H1 H2].
  destruct (PositionI.positions inv) as [| p rest] eqn:E.
  - rewrite (remove_position_nil inv m E) in H. injection H as <- _.
    split; [exact H1 | now rewrite E].
  - rewrite (remove_position_cons inv m p rest E) in H.
    destruct (if String.eqb _ _ then _ else _) as [pnl0 |]; [| discriminate].
    cbn [bind] in H. injection H as <- _.
    inversion H2; subst. now split.
Qed.

(** X10.  Orders stay on their side: throughout a run of the process
    every order of the long inventory, active or closed, is a long order,
    and every order of the short inventory is a short order.  An order of
    any other side is never stored. *)
Theorem X10_orders_stay_on_their_side :
  forall (BROKER_FEE : Q) (max_position _id : Z) (b0 : Broker.t)
         (cs : list Process.command) (p : Process.t),
    Broker.init max_position = Ok b0 ->
    Process.run BROKER_FEE (Process.mk _id b0) cs = Ok p ->
    all_side "long" (Broker.long_inventory (Process.broker p)) /\
    all_side "short" (Broker.short_inventory (Process.broker p)).
Proof.
  intros fee max_position _id b0 cs p Hinit Hrun.
  set (P := fun b => all_side "long" (Broker.long_inventory b) /\
                     all_side "short" (Broker.short_inventory b)).
  assert (Hex : forall p p' c, Process.exec fee p c = Ok p' ->
                  P (Process.broker p) -> P (Process.broker p')).
  { intros q q' c. destruct c; simpl.
    - intros [= <-] [HL HS]. simpl.
      apply (broker_add_preserves (all_side "long") (all_side "short"));
        auto; intros inv o Ho; now apply add_order_side.
    - destruct (Broker.step _ _ _ _ _ _ _) as [[b r] |] eqn:S;
        [| discriminate].
      simpl. intros [= <-] [HL HS]. simpl.
      exact (broker_step_preserves (all_side "long") (all_side "short")
               (step_side "long") (pop_position_side "long")
               (remove_position_side "long")
               (step_side "short") (pop_position_side "short")
               (remove_position_side "short")
               _ _ _ _ _ _ _ _ _ S HL HS).
    - destruct (Broker.flatten_inventory _ _ _ _) as [[b r] |] eqn:S;
        [| discriminate].
      simpl. intros [= <-] [HL HS]. simpl.
      apply (broker_flatten_preserves (all_side "long") (all_side "short")
               fee) with (3 := S); auto;
        apply flatten_inventory_preserves;
        try (intros inv x H; exact H);
        intros inv inv' m d; apply remove_position_side.
    - intros [= <-] _. simpl. split; split; simpl;
        try discriminate; constructor. }
  assert (H0 : P b0).
  { unfold Broker.init, PositionI.init in Hinit.
    destruct (py_div 1 _); [| discriminate]. simpl in Hinit.
    injection Hinit as <-. split; split; simpl; try discriminate;
      constructor. }
  exact (process_run_preserves P fee Hex cs _ _ Hrun H0).
Qed.

Lemma X10_orders_stay_on_their_side_witness :
  let b0 := Broker.mk
              (PositionI.mk 1 [] None 0 0 false 0 "long" 0 (1 / inject_Z 1) 0)
              (PositionI.mk 1 [] None 0 0 false 0 "short" 0 (1 / inject_Z 1) 0) in
  let cs := [Process.CreateOrder "BTC-USD" "short" 100 0 0;
             Process.BrokerStep 99 100 0 1000 1;
             Process.CreateOrder "BTC-USD" "flat" 101 1 0;
             Process.CreateOrder "BTC-USD" "long" 99 1 0] in
  exists p : Process.t,
    Process.run (1 # 1000) (Process.mk 0 b0) cs = Ok p /\
    all_side "long" (Broker.long_inventory (Process.broker p)) /\
    all_side "short" (Broker.short_inventory (Process.broker p)).
Proof.
  intros b0 cs.
  destruct (Process.run (1 # 1000) (Process.mk 0 b0) cs) as [p |] eqn:Hrun;
    [| vm_compute in Hrun; discriminate Hrun].
  exists p. split; [reflexivity |].
  exact (X10_orders_stay_on_their_side (1 # 1000) 1 0 b0 cs p eq_refl Hrun).
Defined.

(** ** Netting keeps one side flat *)

Lemma half_step_flat (own other own1 own2 other2 : PositionI.t)
    (bid ask bv sv : Q) (st : Z) (f : bool) (d : Q) :
  PositionI.step own bid ask bv sv st = Ok (own1, f) ->
  netting f own1 other = Ok (own2, other2, d) ->
  PositionI.positions own = [] \/ PositionI.positions other = [] ->
  PositionI.positions own2 = [] \/ PositionI.positions other2 = [].
Proof.
  intros S N Hflat.
  destruct (step_positions _ _ _ _ _ _ _ _ S) as (_ & _ & Sp).
  destruct (netting_effect _ _ _ _ _ _ N)
    as (_ & _ & [(E1 & E2 & C) | (-> & p & q & E1 & E2)]).
  - rewrite E1, E2.
    destruct Sp as [[-> E] | [-> (x & E)]].
    + now rewrite E.
    + destruct C as [C | C]; [discriminate | now right].
  - destruct Sp as [[F _] | [_ (x & E)]]; [discriminate |].
    destruct Hflat as [H | H]; [| rewrite H in E2; discriminate].
    rewrite H in E. simpl in E. rewrite E in E1.
    destruct (PositionI.positions own2) as [| y l]; [now left |].
    exfalso. apply (f_equal (@length _)) in E1.
    rewrite length_app in E1. simpl in E1. lia.
Qed.

Lemma flatten_loop_empties (fee m : Q) (fuel : nat) :
  forall inv inv' : PositionI.t,
    (length (PositionI.positions inv) <= fuel)%nat ->
    PositionI.flatten_loop fee fuel inv m = Ok inv' ->
    PositionI.positions inv' = [] /\
    PositionI.total_trade_count inv'
    = (PositionI.total_trade_count inv + PositionI.position_count inv)%Z.
Proof.
  induction fuel as [| fuel IH]; intros inv inv' Hl; simpl;
    unfold PositionI.position_count.
  - destruct (PositionI.positions inv) as [| p rest] eqn:E;
      [| simpl in Hl; lia].
    simpl. intros [= <-]. rewrite E. simpl. split; [reflexivity | lia].
  - destruct (PositionI.positions inv) as [| p rest] eqn:E.
    + simpl. intros [= <-]. rewrite E. simpl. split; [reflexivity | lia].
    + change (0 <? Z.of_nat (length (p :: rest)))%Z with true. cbv iota.
      destruct (PositionI.remove_position inv m) as [[inv1 pnl] |] eqn:R;
        [| discriminate].
      simpl bind. intros H.
      destruct (remove_position_effect _ _ _ _ R) as (R1 & _ & R3).
      rewrite E in R1. simpl in R1.
      unfold PositionI.position_count in R3. rewrite E, R1 in R3.
      destruct (IH (PositionI.set_realized_pnl inv1
                      (PositionI.realized_pnl inv1 - fee)) inv') as [I1 I2].
      * simpl. rewrite R1. simpl in Hl. lia.
      * exact H.
      * split; [exact I1 |]. rewrite I2.
        unfold PositionI.position_count. simpl. rewrite R1, R3.
        simpl length. lia.
Qed.

Lemma flatten_inventory_empties (fee : Q) (inv inv' : PositionI.t) (m r : Q) :
  PositionI.flatten_inventory fee inv m = Ok (inv', r) ->
  PositionI.positions inv' = [] /\
  PositionI.total_trade_count inv'
  = (PositionI.total_trade_count inv + PositionI.position_count inv)%Z.
Proof.
  unfold PositionI.flatten_inventory.
  destruct (_ <? 1)%Z eqn:C.
  - intros [= <- _]. apply Z.ltb_lt in C.
    unfold PositionI.position_count in *.
    destruct (PositionI.positions inv); simpl in *; [split; [reflexivity | lia] | lia].
  - destruct (PositionI.flatten_loop _ _ _ _) as [inv1 |] eqn:L;
      [| discriminate].
    simpl. intros [= <- _].
    exact (flatten_loop_empties _ _ _ _ _ (le_n _) L).
Qed.

Lemma add_order_positions (inv : PositionI.t) (o : Order.t) :
  PositionI.positions (fst (PositionI.add_order inv o))
  = PositionI.positions inv.
Proof.
  unfold PositionI.add_order.
  destruct (negb _); [destruct (PositionI.order inv) |]; reflexivity.
Qed.

Lemma broker_add_positions (b : Broker.t) (o : Order.t) :
  PositionI.positions (Broker.long_inventory (fst (Broker.add b o)))
  = PositionI.positions (Broker.long_inventory b) /\
  PositionI.positions (Broker.short_inventory (fst (Broker.add b o)))
  = PositionI.positions (Broker.short_inventory b).
Proof.
  unfold Broker.add.
  destruct (String.eqb _ "long").
  - pose proof (add_order_positions (Broker.long_inventory b) o) as H.
    destruct (PositionI.add_order _ _) as [inv ok]. simpl in *. auto.
  - destruct (String.eqb _ "short"); [| auto].
    pose proof (add_order_positions (Broker.short_inventory b) o) as H.
    destruct (PositionI.add_order _ _) as [inv ok]. simpl in *. auto.
Qed.

Lemma broker_flatten_inversion (fee : Q) (b b' : Broker.t) (bid ask r : Q) :
  Broker.flatten_inventory fee b bid ask = Ok (b', r) ->
  exists long t short d,
    PositionI.flatten_inventory fee (Broker.long_inventory b) bid
    = Ok (long, t) /\
    PositionI.flatten_inventory fee (Broker.short_inventory b) ask
    = Ok (short, d) /\
    b' = Broker.mk long short /\
    r * Broker.reward_scale fee == t + d.
Proof.
  unfold Broker.flatten_inventory.
  destruct (PositionI.flatten_inventory fee (Broker.long_inventory b) bid)
    as [[long t] |] eqn:L; [| discriminate].
  cbn [bind Broker.short_inventory Broker.long_inventory].
  destruct (PositionI.flatten_inventory fee (Broker.short_inventory b) ask)
    as [[short d] |] eqn:S; [| discriminate].
  cbn [bind Broker.short_inventory Broker.long_inventory].
  intros H. exists long, t, short, d.
  split; [reflexivity |]. split; [reflexivity |].
  destruct (Qeq_bool (t + d) 0) eqn:Z; cbn [negb] in H.
  - injection H as <- <-. split; [reflexivity |].
    apply Qeq_bool_iff in Z. rewrite Z. ring.
  - unfold py_div in H.
    destruct (Qeq_bool (Broker.reward_scale fee) 0) eqn:Z'; [discriminate |].
    cbn [bind] in H. injection H as <- <-. split; [reflexivity |].
    apply Qeq_bool_false in Z'. field. exact Z'.
Qed.

(** X11.  Netting keeps one side flat: throughout a run of the process the
    broker never holds closed positions on both sides at once. *)
Theorem X11_one_side_flat :
  forall (BROKER_FEE : Q) (max_position _id : Z) (b0 : Broker.t)
         (cs : list Process.command) (p : Process.t),
    Broker.init max_position = Ok b0 ->
    Process.run BROKER_FEE (Process.mk _id b0) cs = Ok p ->
    Broker.long_inventory_count (Process.broker p) = 0%Z \/
    Broker.short_inventory_count (Process.broker p) = 0%Z.
Proof.
  intros fee max_position _id b0 cs p Hinit Hrun.
  set (P := fun b => PositionI.positions (Broker.long_inventory b) = [] \/
                     PositionI.positions (Broker.short_inventory b) = []).
  assert (Hex : forall p p' c, Process.exec fee p c = Ok p' ->
                  P (Process.broker p) -> P (Process.broker p')).
  { intros q q' c. destruct c; simpl.
    - intros [= <-] H. unfold P. simpl.
      match goal with
      | |- context [Broker.add ?b ?o] =>
          destruct (broker_add_positions b o) as [E1 E2]
      end.
      rewrite E1, E2. exact H.
    - destruct (Broker.step _ _ _ _ _ _ _) as [[b r] |] eqn:S;
        [| discriminate].
      simpl. intros [= <-] H. unfold P in *. simpl.
      destruct (broker_step_inversion _ _ _ _ _ _ _ _ _ S)
        as (long1 & f1 & long2 & short2 & d1 & short3 & f2 & short4 & long4
            & d2 & H1 & H2 & H3 & H4 & -> & _).
      simpl.
      pose proof (half_step_flat _ _ _ _ _ _ _ _ _ _ _ _ H1 H2 H) as F1.
      assert (F1' : PositionI.positions short2 = [] \/
                    PositionI.positions long2 = []) by tauto.
      pose proof (half_step_flat _ _ _ _ _ _ _ _ _ _ _ _ H3 H4 F1') as F2.
      tauto.
    - destruct (Broker.flatten_inventory _ _ _ _) as [[b r] |] eqn:S;
        [| discriminate].
      simpl. intros [= <-] _. unfold P. simpl.
      destruct (broker_flatten_inversion _ _ _ _ _ _ S)
        as (long & t & short & d & L & _ & -> & _).
      left. simpl. exact (proj1 (flatten_inventory_empties _ _ _ _ _ L)).
    - intros [= <-] _. left. reflexivity. }
  assert (H0 : P b0).
  { unfold Broker.init, PositionI.init in Hinit.
    destruct (py_div 1 _); [| discriminate]. simpl in Hinit.
    injection Hinit as <-. left. reflexivity. }
  pose proof (process_run_preserves P fee Hex cs _ _ Hrun H0) as [H | H];
    [left | right];
    unfold Broker.long_inventory_count, Broker.short_inventory_count,
      PositionI.position_count; now rewrite H.
Qed.

Lemma X11_one_side_flat_witness :
  let b0 := Broker.mk
              (PositionI.mk 2 [] None 0 0 false 0 "long" 0 (1 / inject_Z 2) 0)
              (PositionI.mk 2 [] None 0 0 false 0 "short" 0 (1 / inject_Z 2) 0) in
  let cs := [Process.CreateOrder "BTC-USD" "short" 100 0 0;
             Process.BrokerStep 99 100 0 1000 1;
             Process.CreateOrder "BTC-USD" "short" 101 1 0;
             Process.CreateOrder "BTC-USD" "long" 99 1 0;
             Process.BrokerStep 99 101 1000 1000 2] in
  exists p : Process.t,
    Process.run (1 # 1000) (Process.mk 0 b0) cs = Ok p /\
    (Broker.long_inventory_count (Process.broker p) = 0%Z \/
     Broker.short_inventory_count (Process.broker p) = 0%Z).
Proof.
  intros b0 cs.
  destruct (Process.run (1 # 1000) (Process.mk 0 b0) cs) as [p |] eqn:Hrun;
    [| vm_compute in Hrun; discriminate Hrun].
  exists p. split; [reflexivity |].
  exact (X11_one_side_flat (1 # 1000) 2 0 b0 cs p eq_refl Hrun).
Defined.

(** ** Flattening the broker *)

Lemma flatten_inventory_value (fee : Q) (inv inv' : PositionI.t) (m r : Q) :
  PositionI.flatten_inventory fee inv m = Ok (inv', r) ->
  r = (if (PositionI.position_count inv <? 1)%Z
       then - (1 # 100000000000)
       else PositionI.realized_pnl inv' - PositionI.realized_pnl inv).
Proof.
  unfold PositionI.flatten_inventory.
  destruct (PositionI.position_count inv <? 1)%Z.
  - now intros [= <- <-].
  - destruct (PositionI.flatten_loop _ _ _ _) as [inv1 |]; [| discriminate].
    simpl. now intros [= <- <-].
Qed.

(** X12.  When [Broker.flatten_inventory] returns, both sides are empty,
    the trade count has grown by the number of positions that were held,
    and the unrealized PnL is 0 at every midpoint, so that the total PnL is
    the realized PnL.  The value returned is built from one term per side,
    -1e-11 for a side that held no position and the change of that side's
    [realized_pnl] otherwise: it is the sum [t + d] of the long and the
    short term when that sum tests equal to 0, and [(t + d) / reward_scale]
    otherwise. *)
Theorem X12_broker_flatten :
  forall (BROKER_FEE : Q) (b b' : Broker.t) (bid ask r : Q),
    Broker.flatten_inventory BROKER_FEE b bid ask = Ok (b', r) ->
    Broker.long_inventory_count b' = 0%Z /\
    Broker.short_inventory_count b' = 0%Z /\
    Broker.get_total_trade_count b'
    = (Broker.get_total_trade_count b + Broker.long_inventory_count b
       + Broker.short_inventory_count b)%Z /\
    (forall midpoint,
        Broker.get_unrealized_pnl b' midpoint = Ok (0 + 0) /\
        Broker.get_total_pnl b' midpoint
        = Ok (0 + 0 + Broker.get_realized_pnl b')) /\
    (let t :=
       if (Broker.long_inventory_count b <? 1)%Z
       then - (1 # 100000000000)
       else PositionI.realized_pnl (Broker.long_inventory b')
            - PositionI.realized_pnl (Broker.long_inventory b) in
     let d :=
       if (Broker.short_inventory_count b <? 1)%Z
       then - (1 # 100000000000)
       else PositionI.realized_pnl (Broker.short_inventory b')
            - PositionI.realized_pnl (Broker.short_inventory b) in
     r = (if Qeq_bool (t + d) 0 then t + d
          else (t + d) / Broker.reward_scale BROKER_FEE)).
Proof.
  intros fee b b' bid ask r H.
  assert (Hr : exists long t short d,
             PositionI.flatten_inventory fee (Broker.long_inventory b) bid
             = Ok (long, t) /\
             PositionI.flatten_inventory fee (Broker.short_inventory b) ask
             = Ok (short, d) /\
             b' = Broker.mk long short /\
             r = (if Qeq_bool (t + d) 0 then t + d
                  else (t + d) / Broker.reward_scale fee)).
  { revert H. unfold Broker.flatten_inventory.
    destruct (PositionI.flatten_inventory fee (Broker.long_inventory b) bid)
      as [[long t] |] eqn:L; [| discriminate].
    cbn [bind Broker.short_inventory Broker.long_inventory].
    destruct (PositionI.flatten_inventory fee (Broker.short_inventory b) ask)
      as [[short d] |] eqn:S; [| discriminate].
    cbn [bind Broker.short_inventory Broker.long_inventory].
    intros H. exists long, t, short, d.
    split; [reflexivity |]. split; [reflexivity |].
    destruct (Qeq_bool (t + d) 0); cbn [negb] in H.
    - injection H as <- <-. auto.
    - unfold py_div in H.
      destruct (Qeq_bool (Broker.reward_scale fee) 0); [discriminate |].
      cbn [bind] in H. injection H as <- <-. auto. }
  destruct Hr as (long & t & short & d & L & S & -> & Hr).
  destruct (flatten_inventory_empties _ _ _ _ _ L) as [L1 L2].
  destruct (flatten_inventory_empties _ _ _ _ _ S) as [S1 S2].
  pose proof (flatten_inventory_value _ _ _ _ _ L) as Ht.
  pose proof (flatten_inventory_value _ _ _ _ _ S) as Hd.
  assert (U : forall inv m, PositionI.positions inv = [] ->
                            PositionI.get_unrealized_pnl inv m = Ok 0).
  { intros inv m E. unfold PositionI.get_unrealized_pnl,
      PositionI.position_count. now rewrite E. }
  unfold Broker.long_inventory_count, Broker.short_inventory_count,
    Broker.get_total_trade_count, Broker.get_unrealized_pnl,
    Broker.get_total_pnl, Broker.get_unrealized_pnl, Broker.get_realized_pnl.
  cbn [Broker.long_inventory Broker.short_inventory].
  rewrite <- Ht, <- Hd.
  unfold PositionI.position_count in *.
  rewrite L1, S1, L2, S2.
  split; [reflexivity |]. split; [reflexivity |].
  split; [unfold PositionI.position_count; lia |].
  split; [| exact Hr].
  intros m. rewrite (U long m L1), (U short m S1). split; reflexivity.
Qed.

Lemma X12_broker_flatten_witness :
  let lp := Order.mk "BTC-USD" "long" 100 1 1000 1 0 [(100, 1000)] 100 in
  let b := Broker.mk
             (PositionI.mk 1 [lp] None 0 0 true 100 "long" 100 1 0)
             (PositionI.mk 1 [] None 0 0 false 0 "short" 0 1 0) in
  exists (b' : Broker.t) (r : Q),
    Broker.flatten_inventory (1 # 1000) b 101 102 = Ok (b', r) /\
    Broker.long_inventory_count b' = 0%Z /\
    Broker.get_total_trade_count b' = 1%Z /\
    r = (PositionI.realized_pnl (Broker.long_inventory b') - 0
         + - (1 # 100000000000)) / Broker.reward_scale (1 # 1000).
Proof.
  intros lp b.
  destruct (Broker.flatten_inventory (1 # 1000) b 101 102)
    as [[b' r] |] eqn:S; [| vm_compute in S; discriminate S].
  exists b', r. split; [reflexivity |].
  destruct (X12_broker_flatten _ _ _ _ _ _ S) as (H1 & _ & H2 & _ & H3).
  split; [exact H1 |]. split; [exact H2 |].
  cbv zeta in H3.
  change (Broker.long_inventory_count b <? 1)%Z with false in H3.
  change (Broker.short_inventory_count b <? 1)%Z with true in H3.
  change (PositionI.realized_pnl (Broker.long_inventory b)) with 0 in H3.
  cbv iota in H3.
  destruct (Qeq_bool _ 0) eqn:Z in H3; [| exact H3].
  vm_compute in S. injection S as <- _. vm_compute in Z. discriminate Z.
Defined.

(** X13.  Flattening a broker that holds no position changes nothing and,
    the two sentinels adding up to a non-zero total, returns
    [-0.00000000001 / BROKER_FEE]; with a fee of zero the division by
    [reward_scale] raises [ZeroDivisionError]. *)
Theorem X13_flatten_empty_broker :
  forall (BROKER_FEE : Q) (b : Broker.t) (bid ask : Q),
    PositionI.positions (Broker.long_inventory b) = [] ->
    PositionI.positions (Broker.short_inventory b) = [] ->
    (~ BROKER_FEE == 0 ->
     exists r, Broker.flatten_inventory BROKER_FEE b bid ask = Ok (b, r) /\
               r == - (1 # 100000000000) / BROKER_FEE) /\
    (BROKER_FEE == 0 ->
     Broker.flatten_inventory BROKER_FEE b bid ask
     = Raise ZeroDivisionError).
Proof.
  intros fee [long short] bid ask HL HS. simpl in HL, HS.
  unfold Broker.flatten_inventory.
  cbn [Broker.long_inventory Broker.short_inventory].
  rewrite (flatten_inventory_empty fee long bid)
    by (unfold PositionI.position_count; now rewrite HL).
  cbn [bind Broker.long_inventory Broker.short_inventory].
  rewrite (flatten_inventory_empty fee short ask)
    by (unfold PositionI.position_count; now rewrite HS).
  cbn [bind Broker.long_inventory Broker.short_inventory].
  change (negb (Qeq_bool (- (1 # 100000000000) + - (1 # 100000000000)) 0))
    with true. cbv iota.
  unfold py_div, Broker.reward_scale. split.
  - intros Hf.
    assert (Z : Qeq_bool (fee * 2) 0 = false).
    { apply Qeq_bool_false. intros H. apply Hf.
      setoid_replace fee with (fee * 2 / 2) by field. rewrite H. field. }
    rewrite Z. cbn [bind]. eexists. split; [reflexivity |].
    field. exact Hf.
  - intros Hf.
    assert (Z : Qeq_bool (fee * 2) 0 = true)
      by (apply Qeq_bool_iff; rewrite Hf; ring).
    now rewrite Z.
Qed.

Lemma X13_flatten_empty_broker_witness :
  let b := Broker.mk
             (PositionI.mk 1 [] None 0 0 false 0 "long" 0 1 0)
             (PositionI.mk 1 [] None 0 0 false 0 "short" 0 1 0) in
  (exists r, Broker.flatten_inventory (1 # 1000) b 99 101 = Ok (b, r) /\
             r == - (1 # 100000000000) / (1 # 1000)) /\
  Broker.flatten_inventory 0 b 99 101 = Raise ZeroDivisionError.
Proof.
  intros b. split.
  - apply (X13_flatten_empty_broker (1 # 1000) b 99 101 eq_refl eq_refl).
    intros E. apply Qeq_bool_iff in E. discriminate E.
  - apply (X13_flatten_empty_broker 0 b 99 101 eq_refl eq_refl). reflexivity.
Defined.

(** ** The queue features *)

Lemma queue_feature_bounds (o : Order.t) :
  0 <= Order.queue_ahead o -> Order.executed o <= Order._size ->
  exists x, Broker.queue_feature (Some o) = Ok x /\ -1 < x /\ x <= 1.
Proof.
  intros Hq He. unfold Broker.queue_feature, Order._size in *.
  set (m := Broker.py_max (Order.executed o) (1 # 10000)).
  assert (Hm : (1 # 10000) <= m /\ m <= 1000).
  { unfold m, Broker.py_max. destruct (Qlt_bool _ _) eqn:L.
    - split; lra.
    - split; [| exact He].
      destruct (Qlt_le_dec (Order.executed o) (1 # 10000)) as [H | H];
        [| exact H].
      apply Qlt_bool_iff in H. congruence. }
  assert (Hd : 0 < Order.queue_ahead o + 1000) by lra.
  rewrite py_div_ok by lra.
  eexists. split; [reflexivity |]. split.
  - apply Qlt_shift_div_l; [exact Hd | lra].
  - apply Qle_shift_div_r; [exact Hd | lra].
Qed.

(** X14.  When the active orders have a non-negative [queue_ahead] and an
    [executed] volume of at most the lot size, [get_queues_ahead_features]
    does not raise and both features lie in the interval (-1, 1]; the
    feature of a side without an active order is 0. *)
Theorem X14_queue_features_bounded :
  forall b : Broker.t,
    (forall o,
        PositionI.order (Broker.long_inventory b) = Some o \/
        PositionI.order (Broker.short_inventory b) = Some o ->
        0 <= Order.queue_ahead o /\ Order.executed o <= Order._size) ->
    exists x y,
      Broker.get_queues_ahead_features b = Ok (x, y) /\
      (-1 < x /\ x <= 1) /\ (-1 < y /\ y <= 1) /\
      (PositionI.order (Broker.long_inventory b) = None -> x = 0) /\
      (PositionI.order (Broker.short_inventory b) = None -> y = 0).
Proof.
  intros b H. unfold Broker.get_queues_ahead_features.
  assert (F : forall s, (forall o, s = Some o ->
                0 <= Order.queue_ahead o /\ Order.executed o <= Order._size) ->
              exists x, Broker.queue_feature s = Ok x /\
                        (-1 < x /\ x <= 1) /\ (s = None -> x = 0)).
  { intros [o |] Hs.
    - destruct (Hs o eq_refl) as [Hq He].
      destruct (queue_feature_bounds o Hq He) as (x & E & B).
      exists x. split; [exact E |]. split; [exact B | discriminate].
    - exists 0. split; [reflexivity |]. split; [lra | reflexivity]. }
  destruct (F (PositionI.order (Broker.long_inventory b)))
    as (x & Ex & Bx & Nx); [intros o Ho; apply H; now left |].
  destruct (F (PositionI.order (Broker.short_inventory b)))
    as (y & Ey & By & Ny); [intros o Ho; apply H; now right |].
  exists x, y. rewrite Ex, Ey. simpl. auto.
Qed.

Lemma X14_queue_features_bounded_witness :
  let lo := Order.mk "BTC-USD" "long" 99 1 0 2 250 [] (-1) in
  let b := Broker.mk
             (PositionI.mk 1 [] (Some lo) 0 0 false 0 "long" 0 1 0)
             (PositionI.mk 1 [] None 0 0 false 0 "short" 0 1 0) in
  exists x y,
    Broker.get_queues_ahead_features b = Ok (x, y) /\
    (-1 < x /\ x <= 1) /\ y = 0.
Proof.
  intros lo b.
  destruct (X14_queue_features_bounded b) as (x & y & E & Bx & _ & _ & Ny).
  - intros o [[= <-] | [=]]. split; apply Qle_bool_iff; reflexivity.
  - exists x, y. split; [exact E |]. split; [exact Bx | now apply Ny].
Defined.

(** ** Placing orders through the broker *)

(** X15.  [Broker.add] accepts an order exactly when its side is long or
    short and the inventory of that side is not full.  A rejected order
    leaves the broker unchanged, and an accepted one leaves the inventory
    of the other side and all closed positions untouched. *)
Theorem X15_broker_add :
  forall (b : Broker.t) (o : Order.t),
    let b' := fst (Broker.add b o) in
    let ok := snd (Broker.add b o) in
    (ok = true <->
     (Order.side o = "long"%string /\
      PositionI.full_inventory (Broker.long_inventory b) = false) \/
     (Order.side o = "short"%string /\
      PositionI.full_inventory (Broker.short_inventory b) = false)) /\
    (ok = false -> b' = b) /\
    (Order.side o = "long"%string ->
     Broker.short_inventory b' = Broker.short_inventory b) /\
    (Order.side o = "short"%string ->
     Broker.long_inventory b' = Broker.long_inventory b) /\
    PositionI.positions (Broker.long_inventory b')
    = PositionI.positions (Broker.long_inventory b) /\
    PositionI.positions (Broker.short_inventory b')
    = PositionI.positions (Broker.short_inventory b).
Proof.
  intros b o b' ok.
  destruct (broker_add_positions b o) as [P1 P2].
  split; [| split; [| split; [| split; [| split; [exact P1 | exact P2]]]]];
    unfold b', ok, Broker.add, PositionI.add_order; clear b' ok P1 P2;
    destruct b as [long short]; simpl.
  - destruct (String.eqb (Order.side o) "long") eqn:E1.
    + apply String.eqb_eq in E1.
      destruct (PositionI.full_inventory long) eqn:F; simpl.
      * split; [discriminate |].
        intros [[_ H] | [H _]]; [discriminate | rewrite E1 in H; discriminate].
      * destruct (PositionI.order long); simpl; split; auto.
    + apply String.eqb_neq in E1.
      destruct (String.eqb (Order.side o) "short") eqn:E2.
      * apply String.eqb_eq in E2.
        destruct (PositionI.full_inventory short) eqn:F; simpl.
        -- split; [discriminate |].
           intros [[H _] | [_ H]]; [contradiction | discriminate].
        -- destruct (PositionI.order short); simpl; split; auto.
      * apply String.eqb_neq in E2. simpl. split; [discriminate |].
        intros [[H _] | [H _]]; contradiction.
  - destruct (String.eqb (Order.side o) "long").
    + destruct (PositionI.full_inventory long); simpl;
        [reflexivity | destruct (PositionI.order long); discriminate].
    + destruct (String.eqb (Order.side o) "short"); [| reflexivity].
      destruct (PositionI.full_inventory short); simpl;
        [reflexivity | destruct (PositionI.order short); discriminate].
  - intros ->. simpl.
    destruct (negb _); [destruct (PositionI.order long) |]; reflexivity.
  - intros ->. simpl.
    destruct (negb _); [destruct (PositionI.order short) |]; reflexivity.
Qed.

Lemma X15_broker_add_witness :
  let b := Broker.mk
             (PositionI.mk 1 [] None 0 0 false 0 "long" 0 1 0)
             (PositionI.mk 1 [] None 0 0 true 0 "short" 0 1 0) in
  let flat := fst (Order.init 0 "BTC-USD" "flat" 100 0 0) in
  let short := fst (Order.init 1 "BTC-USD" "short" 100 0 0) in
  fst (Broker.add b flat) = b /\ fst (Broker.add b short) = b.
Proof.
  intros b flat short. split.
  - destruct (X15_broker_add b flat) as (_ & H & _). apply H. reflexivity.
  - destruct (X15_broker_add b short) as (_ & H & _). apply H. reflexivity.
Defined.

(** ** One entry per price *)

Lemma dict_set_distinct (k v : Q) (d : dict) :
  distinct_keys d -> distinct_keys (dict_set k v d).
Proof.
  induction d as [| [k0 v0] r IH]; simpl; [auto |].
  intros [H1 H2]. destruct (Qeq_bool k0 k) eqn:E; simpl.
  - auto.
  - split; [| exact (IH H2)].
    rewrite dict_get_set.
    destruct (Qeq_bool k k0) eqn:E'; [| exact H1].
    apply Qeq_bool_iff in E'. apply Qeq_bool_false in E.
    exfalso. apply E. now symmetry.
Qed.

Lemma process_executions_record (o : Order.t) (volume : Q) :
  Order.executions (Order.process_executions o volume)
  = dict_record (Order.price o)
      (volume
       - (if Qle_bool Order._size (Order.executed o + volume)
          then Order.executed o + volume - Order._size
          else 0))
      (Order.executions o).
Proof.
  unfold Order.process_executions, Order.is_filled, dict_record.
  cbn [Order.set_executed Order.executed Order.price Order.executions].
  destruct (Qle_bool Order._size (Order.executed o + volume));
    cbn [Order.set_executed Order.executed Order.price Order.executions];
    destruct (dict_get _ _); reflexivity.
Qed.

(** X16.  [process_executions] keeps one entry per price in the executions
    mapping: the keys stay pairwise different, the volume
    [volume - overflow] is added to the entry of the order's current price
    (the entry is created with it when the price is new), where [overflow]
    is [executed + volume - 1000] when [executed + volume] reaches the lot
    size and 0 otherwise, and the entries of all other prices are
    untouched. *)
Theorem X16_one_entry_per_price :
  forall (o : Order.t) (volume : Q),
    distinct_keys (Order.executions o) ->
    let o' := Order.process_executions o volume in
    let overflow :=
      if Qle_bool Order._size (Order.executed o + volume)
      then Order.executed o + volume - Order._size
      else 0 in
    distinct_keys (Order.executions o') /\
    dict_get (Order.price o) (Order.executions o')
    = Some (match dict_get (Order.price o) (Order.executions o) with
            | Some w => w + (volume - overflow)
            | None => volume - overflow
            end) /\
    (forall k, ~ Order.price o == k ->
               dict_get k (Order.executions o')
               = dict_get k (Order.executions o)).
Proof.
  intros o v Hd o' overflow. subst o' overflow.
  rewrite (process_executions_record o v). split.
  - unfold dict_record. destruct (dict_get _ _); now apply dict_set_distinct.
  - split; [apply dict_record_new |].
    intros k Hk. unfold dict_record.
    apply Qeq_bool_false in Hk.
    destruct (dict_get (Order.price o) (Order.executions o));
      rewrite dict_get_set, Hk; reflexivity.
Qed.

Lemma X16_one_entry_per_price_witness :
  let o := Order.mk "BTC-USD" "long" 101 1 400 1 0 [(100, 400)] (-1) in
  let o' := Order.process_executions o 250 in
  distinct_keys (Order.executions o') /\
  dict_get 101 (Order.executions o') = Some (250 - 0) /\
  dict_get 100 (Order.executions o') = Some 400.
Proof.
  intros o.
  destruct (X16_one_entry_per_price o 250) as (H1 & H2 & H3).
  - simpl. auto.
  - split; [exact H1 |]. split; [exact H2 |].
    rewrite H3; [reflexivity |].
    intros E. apply Qeq_bool_iff in E. discriminate E.
Defined.
